(** * gh-skyline: geometry construction and STL assembly

    A shallow embedding of the Go packages [errors], [logger], [types],
    [stl/geometry], [stl] and, for the text preview, [ascii] of gh-skyline,
    with the properties of the specification stated over it.

    Modelling conventions.

    - [float64] values are extended reals: a finite value carries an exact
      real number, and [NaN], [+Inf] and [-Inf] are separate values that
      propagate the IEEE-754 way.  Rounding and overflow of finite
      arithmetic are not modelled, so every theorem about finite values is
      a theorem about the exact arithmetic the code approximates.
    - Go [int] is [Z]; slices are lists; [(value, error)] results are the
      [result] type, where [Error] stands for the Go pair [(nil, err)].
    - The four goroutines of [generateModelGeometry] are modelled by what
      each one sends on its channel ([None] when it returns without
      sending), and the iteration order of the Go map of channels is an
      explicit parameter, since the language leaves it unspecified. *)

From Stdlib Require Import Reals Lra Lia ZArith List String Bool Permutation.
From Stdlib Require Import DecimalString.
Import ListNotations.

Set Implicit Arguments.

(* ------------------------------------------------------------------ *)
(** ** float64 *)

Module f64.

Inductive float64 : Type :=
| Fin (r : R)
| PInf
| NInf
| NaN.

Definition Rltb (a b : R) : bool := if Rlt_dec a b then true else false.
Definition Reqb (a b : R) : bool := if Req_dec_T a b then true else false.

Definition IsNaN (a : float64) : bool :=
  match a with NaN => true | _ => false end.

(** [math.IsInf(a, 0)]: either infinity. *)
Definition IsInf (a : float64) : bool :=
  match a with PInf | NInf => true | _ => false end.

Definition neg (a : float64) : float64 :=
  match a with
  | Fin r => Fin (- r)
  | PInf => NInf
  | NInf => PInf
  | NaN => NaN
  end.

Definition add (a b : float64) : float64 :=
  match a, b with
  | NaN, _ | _, NaN => NaN
  | Fin x, Fin y => Fin (x + y)
  | PInf, NInf | NInf, PInf => NaN
  | PInf, _ | _, PInf => PInf
  | NInf, _ | _, NInf => NInf
  end.

Definition sub (a b : float64) : float64 := add a (neg b).

(** Sign of the product or quotient of an infinity with a finite value. *)
Definition signed_inf (positive : bool) : float64 :=
  if positive then PInf else NInf.

Definition mul (a b : float64) : float64 :=
  match a, b with
  | NaN, _ | _, NaN => NaN
  | Fin x, Fin y => Fin (x * y)
  | PInf, Fin y | Fin y, PInf =>
      if Reqb y 0 then NaN else signed_inf (Rltb 0 y)
  | NInf, Fin y | Fin y, NInf =>
      if Reqb y 0 then NaN else signed_inf (Rltb y 0)
  | PInf, PInf | NInf, NInf => PInf
  | PInf, NInf | NInf, PInf => NInf
  end.

Definition div (a b : float64) : float64 :=
  match a, b with
  | NaN, _ | _, NaN => NaN
  | Fin x, Fin y =>
      if Reqb y 0
      then (if Reqb x 0 then NaN else signed_inf (Rltb 0 x))
      else Fin (x / y)
  | Fin _, PInf | Fin _, NInf => Fin 0
  | PInf, Fin y => signed_inf (negb (Rltb y 0))
  | NInf, Fin y => signed_inf (Rltb y 0)
  | _, _ => NaN
  end.

(** [math.Sqrt] *)
Definition Sqrt (a : float64) : float64 :=
  match a with
  | Fin x => if Rltb x 0 then NaN else Fin (sqrt x)
  | PInf => PInf
  | NInf | NaN => NaN
  end.

(** [math.Abs] *)
Definition Abs (a : float64) : float64 :=
  match a with
  | Fin x => Fin (Rabs x)
  | PInf | NInf => PInf
  | NaN => NaN
  end.

(** The Go comparison [a < b]; false as soon as one side is NaN. *)
Definition ltb (a b : float64) : bool :=
  match a, b with
  | NaN, _ | _, NaN => false
  | Fin x, Fin y => Rltb x y
  | NInf, Fin _ | NInf, PInf | Fin _, PInf => true
  | _, _ => false
  end.

Definition gtb (a b : float64) : bool := ltb b a.

(** The Go comparison [a <= b]. *)
Definition leb (a b : float64) : bool :=
  match a, b with
  | NaN, _ | _, NaN => false
  | Fin x, Fin y => negb (Rltb y x)
  | NInf, _ | _, PInf => true
  | _, _ => false
  end.

(** [float64(n)] for a Go [int]. *)
Definition of_int (n : Z) : float64 := Fin (IZR n).

(** The Go comparison [a == b]; false as soon as one side is NaN. *)
Definition feqb (a b : float64) : bool :=
  match a, b with
  | Fin x, Fin y => Reqb x y
  | PInf, PInf | NInf, NInf => true
  | _, _ => false
  end.

End f64.

Export f64.

Declare Scope f64_scope.
Delimit Scope f64_scope with f64.
Bind Scope f64_scope with float64.
Infix "+" := add : f64_scope.
Infix "-" := sub : f64_scope.
Infix "*" := mul : f64_scope.
Infix "/" := div : f64_scope.
Infix "<?" := ltb : f64_scope.
Infix ">?" := gtb : f64_scope.
Infix "<=?" := leb : f64_scope.

(* ------------------------------------------------------------------ *)
(** ** Package errors *)

Module errors.

Inductive ErrorType : Type :=
| ValidationError
| IOError
| NetworkError
| GraphQLError
| STLError.

(** A Go [error] value: either a [*SkylineError] or an error of some other
    dynamic type (a writer failure, for instance), kept by its text. *)
#[warnings="-register-all"]
Inductive error : Type :=
| SkylineError (Type_ : ErrorType) (Message : string) (Err : option error)
| OtherError (text : string).

Definition New (errType : ErrorType) (message : string) (err : option error)
  : error :=
  SkylineError errType message err.

(** [Wrap]: [nil] stays [nil]; a SkylineError keeps its type and inner error
    and gets the message prefixed; any other error is wrapped as an
    [STLError]. *)
Definition Wrap (err : option error) (message : string) : option error :=
  match err with
  | None => None
  | Some (SkylineError t m inner) =>
      Some (SkylineError t (message ++ ": " ++ m) inner)
  | Some e => Some (SkylineError STLError message (Some e))
  end.

(** [Wrap] on an error known to be non-nil. *)
Definition Wrap1 (e : error) (message : string) : error :=
  match e with
  | SkylineError t m inner => SkylineError t (message ++ ": " ++ m) inner
  | _ => SkylineError STLError message (Some e)
  end.

(** The [Type] field of a SkylineError. *)
Definition TypeOf (e : error) : option ErrorType :=
  match e with
  | SkylineError t _ _ => Some t
  | OtherError _ => None
  end.

Definition ErrorType_eqb (a b : ErrorType) : bool :=
  match a, b with
  | ValidationError, ValidationError | IOError, IOError
  | NetworkError, NetworkError | GraphQLError, GraphQLError
  | STLError, STLError => true
  | _, _ => false
  end.

(** The method [Is] of a SkylineError: the target must be a SkylineError of the same
    type. *)
Definition Is (e target : error) : bool :=
  match e, target with
  | SkylineError t _ _, SkylineError t' _ _ => ErrorType_eqb t t'
  | _, _ => false
  end.

(** The method [Unwrap] of a SkylineError. *)
Definition Unwrap (e : error) : option error :=
  match e with
  | SkylineError _ _ inner => inner
  | OtherError _ => None
  end.

(** The [Message] field of a SkylineError. *)
Definition MessageOf (e : error) : option string :=
  match e with
  | SkylineError _ m _ => Some m
  | OtherError _ => None
  end.

End errors.

Import errors.

Inductive result (A : Type) : Type :=
| Ok (a : A)
| Error (e : error).

Arguments Ok {A} a.
Arguments Error {A} e.

(** Number of values a result carries to the caller: the Go functions below
    return a [nil] slice next to every non-nil error. *)
Definition emitted {A : Type} (r : result (list A)) : nat :=
  match r with
  | Ok l => List.length l
  | Error _ => 0
  end.

(* ------------------------------------------------------------------ *)
(** ** Package types *)

Module types.

Record ContributionDay : Type := {
  ContributionCount : Z;
  Date : string
}.

Record Point3D : Type := { X : float64; Y : float64; Z_ : float64 }.

(** [Point3D.IsValid] *)
Definition IsValid (p : Point3D) : bool :=
  negb (IsNaN (X p)) && negb (IsInf (X p)) &&
  negb (IsNaN (Y p)) && negb (IsInf (Y p)) &&
  negb (IsNaN (Z_ p)) && negb (IsInf (Z_ p)).

Record Triangle : Type := {
  Normal : Point3D;
  V1 : Point3D;
  V2 : Point3D;
  V3 : Point3D
}.

(** [Triangle.Validate]; its errors come from the standard [errors]
    package. *)
Definition Validate (t : Triangle) : option error :=
  if negb (IsValid (Normal t)) || negb (IsValid (V1 t))
     || negb (IsValid (V2 t)) || negb (IsValid (V3 t))
  then Some (OtherError "triangle contains invalid coordinates")
  else
    let n := Normal t in
    let normalLength :=
      Sqrt (add (add (mul (X n) (X n)) (mul (Y n) (Y n)))
                (mul (Z_ n) (Z_ n))) in
    if gtb (Abs (sub normalLength (Fin 1))) (Fin (/ 1000000))
    then Some (OtherError "normal vector is not normalized")
    else None.

End types.

Import types.

(* ------------------------------------------------------------------ *)
(** ** Package stl/geometry *)

Module geometry.

Local Open Scope f64_scope.

Definition BaseHeight : float64 := Fin 10.
Definition MaxHeight : float64 := Fin 25.
Definition CellSize : float64 := Fin (5 / 2).
Definition GridSize : Z := 53.
Definition MinHeight : float64 := CellSize.

(** *** vector.go *)

Definition validateVector (v : Point3D) : option error :=
  if negb (IsValid v)
  then Some (New ValidationError "vector contains invalid components" None)
  else None.

Definition epsilon : float64 := Fin (/ 10000000000).

Definition isZeroVector (v : Point3D) : bool :=
  (Abs (X v) <? epsilon) && (Abs (Y v) <? epsilon) && (Abs (Z_ v) <? epsilon).

Definition vectorSubtract (a b : Point3D) : Point3D :=
  {| X := X a - X b; Y := Y a - Y b; Z_ := Z_ a - Z_ b |}.

Definition vectorCross (u v : Point3D) : Point3D :=
  {| X := Y u * Z_ v - Z_ u * Y v;
     Y := Z_ u * X v - X u * Z_ v;
     Z_ := X u * Y v - Y u * X v |}.

(** Euclidean length, as [normalizeVector] and [Triangle.Validate] compute
    it. *)
Definition magnitude (v : Point3D) : float64 :=
  Sqrt (X v * X v + Y v * Y v + Z_ v * Z_ v).

Definition normalizeVector (v : Point3D) : Point3D :=
  let length := magnitude v in
  if length >? Fin 0
  then {| X := X v / length; Y := Y v / length; Z_ := Z_ v / length |}
  else v.

(** The validation loop of [calculateNormal]: the first invalid point
    decides. *)
Fixpoint validateAll (ps : list Point3D) : option error :=
  match ps with
  | [] => None
  | p :: rest =>
      match validateVector p with
      | Some e => Some e
      | None => validateAll rest
      end
  end.

Definition calculateNormal (p1 p2 p3 : Point3D) : result Point3D :=
  match validateAll [p1; p2; p3] with
  | Some e => Error e
  | None =>
      let u := vectorSubtract p2 p1 in
      let v := vectorSubtract p3 p1 in
      let normal := vectorCross u v in
      if isZeroVector normal
      then Error (New ValidationError "degenerate triangle" None)
      else Ok (normalizeVector normal)
  end.

(** *** shapes.go *)

Definition CreateQuad (v1 v2 v3 v4 : Point3D) : result (list Triangle) :=
  match calculateNormal v1 v2 v3 with
  | Error e => Error (Wrap1 e "failed to calculate quad normal")
  | Ok normal =>
      Ok [ {| Normal := normal; V1 := v1; V2 := v2; V3 := v3 |};
           {| Normal := normal; V1 := v1; V2 := v3; V3 := v4 |} ]
  end.

(** The face table of [createBox]: vertex indices of the six quads. *)
Definition quads : list (nat * nat * nat * nat) :=
  [ (0, 1, 2, 3);   (* front *)
    (5, 4, 7, 6);   (* back *)
    (4, 0, 3, 7);   (* left *)
    (1, 5, 6, 2);   (* right *)
    (3, 2, 6, 7);   (* top *)
    (4, 5, 1, 0) ]%nat. (* bottom *)

Definition boxVertices (x y z width height depth : float64)
  : list Point3D :=
  [ {| X := x;         Y := y;          Z_ := z |};
    {| X := x + width; Y := y;          Z_ := z |};
    {| X := x + width; Y := y + height; Z_ := z |};
    {| X := x;         Y := y + height; Z_ := z |};
    {| X := x;         Y := y;          Z_ := z + depth |};
    {| X := x + width; Y := y;          Z_ := z + depth |};
    {| X := x + width; Y := y + height; Z_ := z + depth |};
    {| X := x;         Y := y + height; Z_ := z + depth |} ].

Definition origin : Point3D := {| X := Fin 0; Y := Fin 0; Z_ := Fin 0 |}.

(** [vertices[i]]; every index of [quads] is below 8, so the default is
    never used. *)
Definition vertexAt (vertices : list Point3D) (i : nat) : Point3D :=
  nth i vertices origin.

(** The loop over [quads]: triangles accumulate, the first failing quad
    aborts the box. *)
Fixpoint boxLoop (vertices : list Point3D) (qs : list (nat * nat * nat * nat))
  (triangles : list Triangle) : result (list Triangle) :=
  match qs with
  | [] => Ok triangles
  | (a, b, c, d) :: rest =>
      match CreateQuad (vertexAt vertices a) (vertexAt vertices b)
                       (vertexAt vertices c) (vertexAt vertices d) with
      | Error e => Error (New STLError "failed to create quad" (Some e))
      | Ok quadTriangles => boxLoop vertices rest (triangles ++ quadTriangles)
      end
  end.

Definition createBox (x y z width height depth : float64)
  : result (list Triangle) :=
  if (width <? Fin 0) || (height <? Fin 0) || (depth <? Fin 0)
  then Error (New ValidationError "negative dimensions not allowed" None)
  else boxLoop (boxVertices x y z width height depth) quads [].

Definition CreateCuboidBase (width depth : float64) : result (list Triangle) :=
  createBox (Fin 0) (Fin 0) (neg BaseHeight) width depth BaseHeight.

Definition CreateColumn (x y height size : float64) : result (list Triangle) :=
  createBox x y (Fin 0) size size height.

Definition CreateCube (x y z width height depth : float64)
  : result (list Triangle) :=
  createBox x y z width height depth.

(** *** geometry.go *)

Definition NormalizeContribution (count maxCount : Z) : float64 :=
  if (count =? 0)%Z then Fin 0
  else if (maxCount <=? 0)%Z then MinHeight
  else
    let heightRange := MaxHeight - MinHeight in
    let normalizedValue := Sqrt (of_int count) / Sqrt (of_int maxCount) in
    MinHeight + normalizedValue * heightRange.

(** The inner loop of [CreateContributionGeometry] over the days of one
    week; [dayIdx] is the index of the head of [week]. *)
Fixpoint weekLoop (week : list ContributionDay) (dayIdx weekIdx : Z)
  (baseYOffset : float64) (maxContrib : Z) (triangles : list Triangle)
  : result (list Triangle) :=
  match week with
  | [] => Ok triangles
  | day :: rest =>
      if (ContributionCount day >? 0)%Z then
        let height := NormalizeContribution (ContributionCount day) maxContrib in
        let x := CellSize + of_int weekIdx * CellSize in
        let y := baseYOffset + of_int dayIdx * CellSize in
        match CreateColumn x y height CellSize with
        | Error e => Error e
        | Ok columnTriangles =>
            weekLoop rest (dayIdx + 1)%Z weekIdx baseYOffset maxContrib
                     (triangles ++ columnTriangles)
        end
      else weekLoop rest (dayIdx + 1)%Z weekIdx baseYOffset maxContrib triangles
  end.

(** The outer loop over weeks. *)
Fixpoint yearLoop (contributions : list (list ContributionDay)) (weekIdx : Z)
  (baseYOffset : float64) (maxContrib : Z) (triangles : list Triangle)
  : result (list Triangle) :=
  match contributions with
  | [] => Ok triangles
  | week :: rest =>
      match weekLoop week 0%Z weekIdx baseYOffset maxContrib triangles with
      | Error e => Error e
      | Ok triangles' =>
          yearLoop rest (weekIdx + 1)%Z baseYOffset maxContrib triangles'
      end
  end.

Definition CreateContributionGeometry
  (contributions : list (list ContributionDay)) (yearIndex maxContrib : Z)
  : result (list Triangle) :=
  let baseYOffset := CellSize + of_int yearIndex * Fin 7 * CellSize in
  yearLoop contributions 0%Z baseYOffset maxContrib [].

Definition CalculateMultiYearDimensions (yearCount : Z) : float64 * float64 :=
  let width := of_int GridSize * CellSize + Fin 2 * CellSize in
  let depth := of_int (7 * yearCount) * CellSize + Fin 2 * CellSize in
  (width, depth).

End geometry.

Import geometry.

(* ------------------------------------------------------------------ *)
(** ** Package logger *)

Module logger.

Inductive LogLevel : Type := DEBUG | INFO | WARNING | ERROR.

(** The [iota] value of a level. *)
Definition severity (l : LogLevel) : nat :=
  match l with DEBUG => 0 | INFO => 1 | WARNING => 2 | ERROR => 3 end.

(** The singleton logger: its minimum level, and what the underlying
    [log.Logger.Output] returns when a message is written ([None] for a
    successful write). *)
Record Logger : Type := {
  level : LogLevel;
  output : option error
}.

Definition logf (l : Logger) (lvl : LogLevel) : option error :=
  if (severity (level l) <=? severity lvl)%nat then output l else None.

Definition Debug (l : Logger) : option error := logf l DEBUG.
Definition Info (l : Logger) : option error := logf l INFO.
Definition Warning (l : Logger) : option error := logf l WARNING.

End logger.

Import logger.

(* ------------------------------------------------------------------ *)
(** ** Package stl *)

Module stl.

Local Open Scope string_scope.
Local Open Scope list_scope.
Local Open Scope f64_scope.

Record modelDimensions : Type := {
  innerWidth : float64;
  innerDepth : float64;
  imagePath : string
}.

Definition zeroDimensions : modelDimensions :=
  {| innerWidth := Fin 0; innerDepth := Fin 0; imagePath := "" |}.

Definition Year : Type := list (list ContributionDay).

Definition len {A : Type} (l : list A) : Z := Z.of_nat (List.length l).

Definition validateInput (contributions : Year) (outputPath username : string)
  : option error :=
  if (len contributions =? 0)%Z then
    Some (New ValidationError "contributions data cannot be empty" None)
  else if (len contributions >? GridSize)%Z then
    Some (New ValidationError "contributions data exceeds maximum grid size" None)
  else if String.eqb outputPath "" then
    Some (New ValidationError "output path cannot be empty" None)
  else if String.eqb username "" then
    Some (New ValidationError "username cannot be empty" None)
  else None.

Definition calculateDimensions (yearCount : Z) : result modelDimensions :=
  if (yearCount <=? 0)%Z then
    Error (New ValidationError "year count must be positive" None)
  else
    let '(width, depth) :=
      if (yearCount <=? 1)%Z then CalculateMultiYearDimensions 1
      else CalculateMultiYearDimensions yearCount in
    let dims := {| innerWidth := width; innerDepth := depth;
                   imagePath := "assets/invertocat.png" |} in
    if (innerWidth dims <=? Fin 0) || (innerDepth dims <=? Fin 0) then
      Error (New ValidationError "invalid model dimensions" None)
    else Ok dims.

Definition findMaxContributions (contributions : Year) : Z :=
  fold_left
    (fun maxContrib week =>
       fold_left
         (fun m day =>
            if (ContributionCount day >? m)%Z then ContributionCount day else m)
         week maxContrib)
    contributions 0%Z.

Definition findMaxContributionsAcrossYears (contributionsPerYear : list Year)
  : Z :=
  fold_left
    (fun maxContrib yearContributions =>
       let yearMax := findMaxContributions yearContributions in
       if (yearMax >? maxContrib)%Z then yearMax else maxContrib)
    contributionsPerYear 0%Z.

Record geometryResult : Type := {
  triangles : list Triangle;
  err : option error
}.

(** What lies outside the modelled packages: the process-wide logger, the
    two rasterising producers of [stl/geometry] (fonts and the embedded
    image), the file writer, and the order in which [range] walks the map
    of channels in one run. *)
Record Env : Type := {
  log : Logger;
  Create3DText : string -> string -> float64 -> float64 -> result (list Triangle);
  GenerateImageGeometry : float64 -> float64 -> result (list Triangle);
  WriteSTLBinary : string -> list Triangle -> option error;
  rangeOrder : list string
}.

(** The value a producer sends when a geometry call failed: an empty slice,
    with the logging error if the warning itself could not be written. *)
Definition degraded (env : Env) : geometryResult :=
  match Warning (log env) with
  | Some logErr => {| triangles := []; err := Some logErr |}
  | None => {| triangles := []; err := None |}
  end.

(** Each producer is given as what it sends on its channel; [None] is a
    goroutine that returns without sending. *)
Definition generateBase (env : Env) (dims : modelDimensions)
  : option geometryResult :=
  match CreateCuboidBase (innerWidth dims) (innerDepth dims) with
  | Error _ => Some (degraded env)
  | Ok baseTriangles => Some {| triangles := baseTriangles; err := None |}
  end.

(** [fmt.Sprintf("%d", n)] *)
Definition digits (n : Z) : string :=
  NilZero.string_of_uint (N.to_uint (Z.abs_N n)).

Definition fmt_d (n : Z) : string :=
  if (n <? 0)%Z then ("-" ++ digits n)%string else digits n.

Fixpoint zeros (k : nat) : string :=
  match k with O => "" | S k' => ("0" ++ zeros k')%string end.

(** [fmt.Sprintf("%0<width>d", n)]: zero padding to [width] characters, the
    sign included. *)
Definition fmt_0d (width : nat) (n : Z) : string :=
  let body := digits n in
  if (n <? 0)%Z
  then ("-" ++ zeros (width - 1 - String.length body) ++ body)%string
  else (zeros (width - String.length body) ++ body)%string.

Definition embossedYear (startYear endYear : Z) : string :=
  if negb (startYear =? endYear)%Z
  then (fmt_0d 4 startYear ++ "-" ++ fmt_0d 2 (Z.rem endYear 100))%string
  else fmt_d endYear.

Definition generateText (env : Env) (username : string)
  (startYear endYear : Z) (dims : modelDimensions) : option geometryResult :=
  match Create3DText env username (embossedYear startYear endYear)
                     (innerWidth dims) BaseHeight with
  | Error _ => Some (degraded env)
  | Ok textTriangles => Some {| triangles := textTriangles; err := None |}
  end.

Definition generateLogo (env : Env) (dims : modelDimensions)
  : option geometryResult :=
  match GenerateImageGeometry env (innerWidth dims) BaseHeight with
  | Error _ => Some (degraded env)
  | Ok logoTriangles => Some {| triangles := logoTriangles; err := None |}
  end.

(** The loop of [generateColumnsForYearRange], most recent year first:
    [reversed] holds the years from index [len-1] down to 0 and
    [yearOffset] is the offset of its head.  A failing year is skipped
    after a warning; when the warning cannot be written the goroutine
    returns and nothing is ever sent. *)
Fixpoint columnsLoop (env : Env) (reversed : list Year) (yearOffset : Z)
  (maxContrib : Z) (yearTriangles : list Triangle) : option (list Triangle) :=
  match reversed with
  | [] => Some yearTriangles
  | year :: rest =>
      match CreateContributionGeometry year yearOffset maxContrib with
      | Error _ =>
          match Warning (log env) with
          | Some _ => None
          | None => columnsLoop env rest (yearOffset + 1)%Z maxContrib
                                yearTriangles
          end
      | Ok ts => columnsLoop env rest (yearOffset + 1)%Z maxContrib
                             (yearTriangles ++ ts)
      end
  end.

Definition generateColumnsForYearRange (env : Env)
  (contributionsPerYear : list Year) (maxContrib : Z)
  : option geometryResult :=
  match columnsLoop env (rev contributionsPerYear) 0%Z maxContrib [] with
  | None => None
  | Some yearTriangles =>
      Some {| triangles := yearTriangles; err := None |}
  end.

(** How a call ends: with a value, with an error, blocked forever on a
    channel nobody sends on, or in a run-time panic. *)
Inductive outcome (A : Type) : Type :=
| Done (a : A)
| Failed (e : error)
| Blocked
| Panicked.

Arguments Done {A} a.
Arguments Failed {A} e.
Arguments Blocked {A}.
Arguments Panicked {A}.

(** The receive loop of [generateModelGeometry]: [order] is the sequence of
    keys the [range] over the map yields, [channels] what each key's
    goroutine sends. *)
Fixpoint collect (order : list string)
  (channels : string -> option geometryResult)
  (modelTriangles : list Triangle) : outcome (list Triangle) :=
  match order with
  | [] => Done modelTriangles
  | componentName :: rest =>
      match channels componentName with
      | None => Blocked
      | Some result =>
          match err result with
          | Some e =>
              Failed (Wrap1 e ("failed to generate " ++ componentName
                               ++ " geometry")%string)
          | None => collect rest channels (modelTriangles ++ triangles result)
          end
      end
  end.

(** The keys of the map of channels. *)
Definition componentNames : list string := ["base"; "columns"; "text"; "image"].

Definition generateModelGeometry (env : Env) (contributionsPerYear : list Year)
  (dims : modelDimensions) (maxContrib : Z) (username : string)
  (startYear endYear : Z) : outcome (list Triangle) :=
  if (len contributionsPerYear =? 0)%Z then
    Failed (New ValidationError "contributions data cannot be empty" None)
  else
    let channels (name : string) : option geometryResult :=
      if String.eqb name "base" then generateBase env dims
      else if String.eqb name "columns" then
        generateColumnsForYearRange env contributionsPerYear maxContrib
      else if String.eqb name "text" then
        generateText env username startYear endYear dims
      else if String.eqb name "image" then generateLogo env dims
      else None in
    collect (rangeOrder env) channels [].

(** Observable steps of a run of [GenerateSTLRange]. *)
Inductive event : Type :=
| GeometryStarted
| FileWrite (path : string) (mesh : list Triangle).

Record run : Type := {
  returned : outcome unit;
  trace : list event
}.

Definition fails (e : error) (message : string) (tr : list event) : run :=
  {| returned := Failed (Wrap1 e message); trace := tr |}.

(** [GenerateSTLRange] from the call of [calculateDimensions] on. *)
Definition generateAndWrite (env : Env) (contributions : list Year)
  (outputPath username : string) (startYear endYear : Z) : run :=
  match calculateDimensions (len contributions) with
  | Error e => fails e "failed to calculate dimensions" []
  | Ok dimensions =>
      let maxContribution := findMaxContributionsAcrossYears contributions in
      match generateModelGeometry env contributions dimensions maxContribution
                                  username startYear endYear with
      | Failed e => fails e "failed to generate geometry" [GeometryStarted]
      | Blocked => {| returned := Blocked; trace := [GeometryStarted] |}
      | Panicked => {| returned := Panicked; trace := [GeometryStarted] |}
      | Done modelTriangles =>
          match Info (log env) with
          | Some e => fails e "failed to log info message" [GeometryStarted]
          | None =>
          match Debug (log env) with
          | Some e => fails e "failed to log debug message" [GeometryStarted]
          | None =>
          let tr := [GeometryStarted; FileWrite outputPath modelTriangles] in
          match WriteSTLBinary env outputPath modelTriangles with
          | Some e => fails e "failed to write STL file" tr
          | None =>
          match Info (log env) with
          | Some e => fails e "failed to log info message" tr
          | None => {| returned := Done tt; trace := tr |}
          end end end end
      end
  end.

Definition GenerateSTLRange (env : Env) (contributions : list Year)
  (outputPath username : string) (startYear endYear : Z) : run :=
  match Debug (log env) with
  | Some e => fails e "failed to log debug message" []
  | None =>
      match contributions with
      | [] =>
          (* contributions[0]: index out of range *)
          {| returned := Panicked; trace := [] |}
      | first :: _ =>
          match validateInput first outputPath username with
          | Some e => fails e "input validation failed" []
          | None =>
              generateAndWrite env contributions outputPath username
                               startYear endYear
          end
      end
  end.

Definition GenerateSTL (env : Env) (contributions : Year)
  (outputPath username : string) (year : Z) : run :=
  GenerateSTLRange env [contributions] outputPath username year year.

(** The number of days with a positive count, as [estimateTriangleCount]
    counts them. *)
Definition countActive (contributions : Year) : Z :=
  fold_left
    (fun total week =>
       fold_left
         (fun t day => if (ContributionCount day >? 0)%Z then (t + 1)%Z else t)
         week total)
    contributions 0%Z.

Definition estimateTriangleCount (contributions : Year) : Z :=
  let totalContributions := countActive contributions in
  let baseTrianglesCount := 12%Z in
  let columnsTrianglesCount := (totalContributions * 12)%Z in
  let textTrianglesEstimate := 1000%Z in
  (baseTrianglesCount + columnsTrianglesCount + textTrianglesEstimate)%Z.

End stl.

Import stl.

(* ------------------------------------------------------------------ *)
(** ** Package ascii *)

Module ascii.

Local Open Scope string_scope.
Local Open Scope list_scope.

(** A Go [rune], by its code point. *)
Definition rune : Type := Z.

(** The space character. *)
Definition EmptyBlock : rune := 32%Z.
(** The full stop. *)
Definition FutureBlock : rune := 46%Z.
Definition FoundationLow : rune := 9617%Z. (* U+2591 *)
Definition FoundationMed : rune := 9618%Z. (* U+2592 *)
Definition FoundationHigh : rune := 9619%Z. (* U+2593 *)
Definition MiddleLow : rune := 9617%Z.
Definition MiddleMed : rune := 9618%Z.
Definition MiddleHigh : rune := 9619%Z.
Definition TopLow : rune := 9595%Z.        (* U+257B *)
Definition TopMed : rune := 9475%Z.        (* U+2503 *)
Definition TopHigh : rune := 9597%Z.       (* U+257D *)

Definition LowThreshold : float64 := Fin (33 / 100).
Definition MediumThreshold : float64 := Fin (66 / 100).

Definition GridWidth : nat := 53.

Definition getBlockType (normalized : float64) : nat :=
  if ltb normalized LowThreshold then 0
  else if ltb normalized MediumThreshold then 1
  else 2.

(** The map [blockSets]; a missing key reads as the zero array. *)
Definition blockSets (key : string) : list rune :=
  if String.eqb key "foundation" then
    [FoundationLow; FoundationMed; FoundationHigh]
  else if String.eqb key "middle" then [MiddleLow; MiddleMed; MiddleHigh]
  else if String.eqb key "top" then [TopLow; TopMed; TopHigh]
  else [0%Z; 0%Z; 0%Z].

Definition getBlock (normalized : float64) (dayIdx nonZeroIdx : Z) : rune :=
  if feqb normalized (Fin 0) then EmptyBlock
  else
    let blockType := getBlockType normalized in
    if (nonZeroIdx =? 1)%Z then nth blockType (blockSets "foundation") 0%Z
    else if (dayIdx =? nonZeroIdx - 1)%Z then
      nth blockType (blockSets "top") 0%Z
    else if (dayIdx =? 0)%Z then nth blockType (blockSets "foundation") 0%Z
    else nth blockType (blockSets "middle") 0%Z.

(** The zero value of [ContributionDay], which [make] fills a slice
    with. *)
Definition zeroDay : ContributionDay :=
  {| ContributionCount := 0; Date := "" |}.

(** The three-way split of a week in [sortContributionDays]; [isAfter]
    stands for [day.IsAfter(now)], which parses the date and compares it
    with the clock. *)
Fixpoint separate (isAfter : ContributionDay -> bool)
  (week : list ContributionDay)
  (nonZero zero future : list ContributionDay)
  : list ContributionDay * list ContributionDay * list ContributionDay :=
  match week with
  | [] => (nonZero, zero, future)
  | day :: rest =>
      if isAfter day then
        separate isAfter rest nonZero zero
          (future ++ [ {| ContributionCount := -1; Date := Date day |} ])
      else if (ContributionCount day >? 0)%Z then
        separate isAfter rest (nonZero ++ [day]) zero future
      else separate isAfter rest nonZero (zero ++ [day]) future
  end.

(** [s[i] = v] on a slice. *)
Fixpoint setAt {A : Type} (s : list A) (i : nat) (v : A) : list A :=
  match s, i with
  | [], _ => []
  | _ :: rest, O => v :: rest
  | x :: rest, S i' => x :: setAt rest i' v
  end.

(** One of the three copy loops: [sortedDays[idx] = day; idx++].  Writing
    at an index outside the slice panics. *)
Fixpoint fill (days sortedDays : list ContributionDay) (idx : nat)
  : outcome (list ContributionDay * nat) :=
  match days with
  | [] => Done (sortedDays, idx)
  | day :: rest =>
      if (idx <? List.length sortedDays)%nat
      then fill rest (setAt sortedDays idx day) (S idx)
      else Panicked
  end.

Definition sortContributionDays (isAfter : ContributionDay -> bool)
  (week : list ContributionDay) : outcome (list ContributionDay * Z) :=
  let sortedDays := repeat zeroDay 7 in
  let '(nonZeroContributions, zeroContributions, futureDates) :=
    separate isAfter week [] [] [] in
  match fill nonZeroContributions sortedDays 0 with
  | Done (s1, idx1) =>
      match fill zeroContributions s1 idx1 with
      | Done (s2, idx2) =>
          match fill futureDates s2 idx2 with
          | Done (s3, _) => Done (s3, len nonZeroContributions)
          | Failed e => Failed e
          | Blocked => Blocked
          | Panicked => Panicked
          end
      | Failed e => Failed e
      | Blocked => Blocked
      | Panicked => Panicked
      end
  | Failed e => Failed e
  | Blocked => Blocked
  | Panicked => Panicked
  end.

(** [strings.Repeat(" ", n)] *)
Fixpoint spaces (n : nat) : string :=
  match n with O => "" | S n' => String (Ascii.ascii_of_nat 32) (spaces n') end.

Definition newline : string := String (Ascii.ascii_of_nat 10) "".

(** [centerText]; a Go string is its sequence of bytes. *)
Definition centerText (text : string) : string :=
  let visualWidth := String.length text in
  if (GridWidth <=? visualWidth)%nat then
    (substring 0 GridWidth text ++ newline)%string
  else
    let totalPadding := (GridWidth - visualWidth)%nat in
    if (totalPadding <=? 1)%nat then (text ++ newline)%string
    else
      let leftPadding := (totalPadding / 2)%nat in
      let rightPadding := (totalPadding - leftPadding)%nat in
      (spaces leftPadding ++ text ++ spaces rightPadding ++ newline)%string.

End ascii.

Import ascii.

(* ------------------------------------------------------------------ *)
(** ** Single-precision output (types.go) and the binary writer *)

Module binary.

Import Byte.

Section Float32.

(** The binary32 format is a parameter: its values, the Go conversion
    [float32(x)], and the four little-endian bytes of a value. *)
Variable float32 : Type.
Variable toFloat32 : float64 -> float32.
Variable bits32 : float32 -> byte * byte * byte * byte.

Record Point3DFloat32 : Type := { X32 : float32; Y32 : float32; Z32 : float32 }.

(** [Point3D.ToFloat32] *)
Definition Point3D_ToFloat32 (p : Point3D) : Point3DFloat32 :=
  {| X32 := toFloat32 (X p); Y32 := toFloat32 (Y p); Z32 := toFloat32 (Z_ p) |}.

Record TriangleFloat32 : Type := {
  Normal32 : Point3DFloat32;
  V1_32 : Point3DFloat32;
  V2_32 : Point3DFloat32;
  V3_32 : Point3DFloat32
}.

(** [Triangle.ToFloat32] *)
Definition Triangle_ToFloat32 (t : Triangle) : TriangleFloat32 :=
  {| Normal32 := Point3D_ToFloat32 (Normal t);
     V1_32 := Point3D_ToFloat32 (V1 t);
     V2_32 := Point3D_ToFloat32 (V2 t);
     V3_32 := Point3D_ToFloat32 (V3 t) |}.

Definition putFloat32 (f : float32) : list byte :=
  let '(b0, b1, b2, b3) := bits32 f in [b0; b1; b2; b3].

Definition putPoint (p : Point3DFloat32) : list byte :=
  putFloat32 (X32 p) ++ putFloat32 (Y32 p) ++ putFloat32 (Z32 p).

Definition byteOf (n : Z) : byte :=
  match Byte.of_N (Z.to_N (n mod 256)) with
  | Some b => b
  | None => x00
  end.

(** A 32-bit unsigned integer, least significant byte first; the
    conversion [uint32(n)] wraps modulo 2^32. *)
Definition putUint32 (n : Z) : list byte :=
  let w := (n mod 4294967296)%Z in
  [byteOf w; byteOf (w / 256); byteOf (w / 65536); byteOf (w / 16777216)].

(** Reading such a field back. *)
Definition getUint32 (bs : list byte) : Z :=
  match bs with
  | [b0; b1; b2; b3] =>
      (Z.of_N (Byte.to_N b0) + 256 * Z.of_N (Byte.to_N b1)
       + 65536 * Z.of_N (Byte.to_N b2) + 16777216 * Z.of_N (Byte.to_N b3))%Z
  | _ => 0%Z
  end.

(** Modelled from the spec: the 50-byte record of one triangle of the
    binary writer ([WriteSTLBinary], whose source file is not part of the
    sources at hand): normal, three vertices, and a two-byte attribute
    field written as zero. *)
Definition putTriangle (t : TriangleFloat32) : list byte :=
  putPoint (Normal32 t) ++ putPoint (V1_32 t) ++ putPoint (V2_32 t)
  ++ putPoint (V3_32 t) ++ [x00; x00].

(** Modelled from the spec: the header of the binary writer, 80 bytes,
    zero-filled. *)
Definition header : list byte := repeat x00 80.

(** Modelled from the spec: the byte stream the binary writer
    ([WriteSTLBinary]) produces for a mesh: header, triangle count, then
    one record per triangle, each triangle converted to single precision
    at this point. *)
Definition STLBytes (mesh : list Triangle) : list byte :=
  header ++ putUint32 (Z.of_nat (List.length mesh))
  ++ flat_map (fun t => putTriangle (Triangle_ToFloat32 t)) mesh.

End Float32.

End binary.

Import binary.

(* ------------------------------------------------------------------ *)
(** ** Vocabulary of the properties *)

Module props.

Local Open Scope f64_scope.

Definition dot (u v : Point3D) : float64 :=
  X u * X v + Y u * Y v + Z_ u * Z_ v.

Definition pt (x y z : R) : Point3D := {| X := Fin x; Y := Fin y; Z_ := Fin z |}.

(** A point all of whose coordinates are finite numbers. *)
Definition finite (p : Point3D) : Prop := exists x y z, p = pt x y z.

(** The normal field holds a unit vector. *)
Definition unitNormal (t : Triangle) : Prop := magnitude (Normal t) = Fin 1.

(** The three corners of a triangle, and of a mesh. *)
Definition corners (t : Triangle) : list Point3D := [V1 t; V2 t; V3 t].
Definition meshCorners (ts : list Triangle) : list Point3D := flat_map corners ts.

(** A triangle of zero area: the cross product of two of its edges
    vanishes. *)
Definition zeroArea (t : Triangle) : Prop :=
  vectorCross (vectorSubtract (V2 t) (V1 t)) (vectorSubtract (V3 t) (V1 t))
  = pt 0 0 0.

Definition failed {A : Type} (r : result A) : Prop := exists e, r = Error e.

(** The two triangles [CreateQuad] builds for one row of the face table
    when it succeeds. *)
Definition faceTriangles (vertices : list Point3D)
  (q : nat * nat * nat * nat) : list Triangle :=
  let '(a, b, c, d) := q in
  let va := vertexAt vertices a in
  let vb := vertexAt vertices b in
  let vc := vertexAt vertices c in
  let vd := vertexAt vertices d in
  let normal :=
    normalizeVector (vectorCross (vectorSubtract vb va) (vectorSubtract vc va)) in
  [ {| Normal := normal; V1 := va; V2 := vb; V3 := vc |};
    {| Normal := normal; V1 := va; V2 := vc; V3 := vd |} ].

(** The error [CreateQuad] returns for a degenerate first triangle, and
    what [createBox] makes of it. *)
Definition quadDegenerate : error :=
  SkylineError ValidationError
    "failed to calculate quad normal: degenerate triangle" None.

Definition boxDegenerate : error :=
  New STLError "failed to create quad" (Some quadDegenerate).

Definition negativeDimensions : error :=
  New ValidationError "negative dimensions not allowed" None.

Definition failsWith {A : Type} (r : result A) (t : ErrorType) : Prop :=
  exists e, r = Error e /\ TypeOf e = Some t.

(** *** Environments used in examples *)

Definition quietLogger : Logger := {| level := INFO; output := None |}.

(** An environment in which every warning is written, the file writer
    succeeds, and the text and logo producers return the given meshes. *)
Definition envWith (text logo : list Triangle) (order : list string) : Env :=
  {| log := quietLogger;
     Create3DText := fun _ _ _ _ => Ok text;
     GenerateImageGeometry := fun _ _ => Ok logo;
     WriteSTLBinary := fun _ _ => None;
     rangeOrder := order |}.

(** The same surroundings with another iteration order of the channels. *)
Definition withOrder (env : Env) (order : list string) : Env :=
  {| log := log env;
     Create3DText := Create3DText env;
     GenerateImageGeometry := GenerateImageGeometry env;
     WriteSTLBinary := WriteSTLBinary env;
     rangeOrder := order |}.

Definition day (count : Z) : ContributionDay :=
  {| ContributionCount := count; Date := "2023-01-01" |}.

(** A year of one week with a single active day. *)
Definition smallYear : Year := [[day 1]].

(** A year with no active day. *)
Definition idleYear : Year := [[day 0]].

Definition flatTriangle (a : R) : Triangle :=
  {| Normal := pt 0 0 1; V1 := pt a 0 0; V2 := pt (a + 1) 0 0;
     V3 := pt a 1 0 |}.

(** The triangles a channel delivers, none if nothing is sent. *)
Definition delivered (channels : string -> option geometryResult)
  (name : string) : list Triangle :=
  match channels name with
  | Some r => triangles r
  | None => []
  end.

(** What each key of the map of channels receives in
    [generateModelGeometry]. *)
Definition channelsOf (env : Env) (contributionsPerYear : list Year)
  (dims : modelDimensions) (maxContrib : Z) (username : string)
  (startYear endYear : Z) (name : string) : option geometryResult :=
  if String.eqb name "base" then generateBase env dims
  else if String.eqb name "columns" then
    generateColumnsForYearRange env contributionsPerYear maxContrib
  else if String.eqb name "text" then
    generateText env username startYear endYear dims
  else if String.eqb name "image" then generateLogo env dims
  else None.

(** The dimensions [calculateDimensions] gives a one-year model. *)
Definition oneYearDimensions : modelDimensions :=
  {| innerWidth := Fin (275 / 2); innerDepth := Fin (45 / 2);
     imagePath := "assets/invertocat.png" |}.

(** A run wrote no file. *)
Definition noFileWritten (r : run) : Prop :=
  forall path mesh, ~ In (FileWrite path mesh) (trace r).

(** *** Counting and moving *)

(** The step of the inner loop of [findMaxContributions]. *)
Definition dayMax (m : Z) (d : ContributionDay) : Z :=
  if (ContributionCount d >? m)%Z then ContributionCount d else m.

(** A day that gets a column. *)
Definition isActive (d : ContributionDay) : bool :=
  (ContributionCount d >? 0)%Z.

(** The days of a year that get a column. *)
Definition activeDays (year : Year) : list ContributionDay :=
  List.filter (fun d => (ContributionCount d >? 0)%Z) (List.concat year).

Definition activeCount (year : Year) : nat := List.length (activeDays year).

Definition translatePoint (dx dy dz : R) (p : Point3D) : Point3D :=
  {| X := add (X p) (Fin dx); Y := add (Y p) (Fin dy);
     Z_ := add (Z_ p) (Fin dz) |}.

(** A triangle moved as a whole; the normal is a direction and stays. *)
Definition translate (dx dy dz : R) (t : Triangle) : Triangle :=
  {| Normal := Normal t;
     V1 := translatePoint dx dy dz (V1 t);
     V2 := translatePoint dx dy dz (V2 t);
     V3 := translatePoint dx dy dz (V3 t) |}.

Definition negate (p : Point3D) : Point3D :=
  {| X := neg (X p); Y := neg (Y p); Z_ := neg (Z_ p) |}.

(** The column triangles of one year, none if the year fails. *)
Definition columnsOf (year : Year) (yearIndex maxContrib : Z) : list Triangle :=
  match CreateContributionGeometry year yearIndex maxContrib with
  | Ok ts => ts
  | Error _ => []
  end.

(** The columns of a list of years, the head at offset [yearOffset] and
    each following year one offset further back. *)
Fixpoint stacked (years : list Year) (yearOffset maxContrib : Z)
  : list Triangle :=
  match years with
  | [] => []
  | y :: rest =>
      columnsOf y yearOffset maxContrib
      ++ stacked rest (yearOffset + 1)%Z maxContrib
  end.

(** Active days over several years. *)
Definition totalActive (years : list Year) : nat :=
  list_sum (map activeCount years).

(** The normals of the twelve triangles of a box, face by face: front,
    back, left, right, top, bottom. *)
Definition boxNormals : list Point3D :=
  [ pt 0 0 1; pt 0 0 1; pt 0 0 (-1); pt 0 0 (-1);
    pt 1 0 0; pt 1 0 0; pt (-1) 0 0; pt (-1) 0 0;
    pt 0 (-1) 0; pt 0 (-1) 0; pt 0 1 0; pt 0 1 0 ].

(** The normal of [t] makes a positive scalar product with the direction
    from the first corner of [t] to [c]: it points to the side of [c]. *)
Definition pointsTowards (c : Point3D) (t : Triangle) : Prop :=
  exists r, dot (Normal t) (vectorSubtract c (V1 t)) = Fin r /\ (0 < r)%R.

(** A result with its triangles moved. *)
Definition translated (dx dy dz : R) (r : result (list Triangle))
  : result (list Triangle) :=
  match r with
  | Ok ts => Ok (map (translate dx dy dz) ts)
  | Error e => Error e
  end.

(** A week as [sortContributionDays] orders it: the past days with a
    positive count, then the other past days, then the future days with
    their count replaced by -1, each group in its original order. *)
Definition futureMark (d : ContributionDay) : ContributionDay :=
  {| ContributionCount := -1; Date := Date d |}.

Definition pastActive (isAfter : ContributionDay -> bool)
  (week : list ContributionDay) : list ContributionDay :=
  List.filter (fun d => negb (isAfter d) && (ContributionCount d >? 0)%Z) week.

Definition pastIdle (isAfter : ContributionDay -> bool)
  (week : list ContributionDay) : list ContributionDay :=
  List.filter (fun d => negb (isAfter d) && negb (ContributionCount d >? 0)%Z)
              week.

Definition futureDays (isAfter : ContributionDay -> bool)
  (week : list ContributionDay) : list ContributionDay :=
  map futureMark (List.filter isAfter week).

(** A finite point inside an axis-parallel box. *)
Definition within (xlo xhi ylo yhi zlo zhi : R) (p : Point3D) : Prop :=
  exists a b c, p = pt a b c
    /\ (xlo <= a <= xhi)%R /\ (ylo <= b <= yhi)%R /\ (zlo <= c <= zhi)%R.

(** An environment whose logger, text and logo producers and file writer
    are given outright. *)
Definition plainEnv (lg : Logger) (text logo : result (list Triangle))
  (write : option error) (order : list string) : Env :=
  {| log := lg;
     Create3DText := fun _ _ _ _ => text;
     GenerateImageGeometry := fun _ _ => logo;
     WriteSTLBinary := fun _ _ => write;
     rangeOrder := order |}.

End props.

Import props.

(* ------------------------------------------------------------------ *)
(** ** Comparisons and finite arithmetic *)

Local Open Scope R_scope.

Lemma Rltb_true (a b : R) : Rltb a b = true <-> a < b.
Proof. unfold Rltb; destruct (Rlt_dec a b); split; intros; try easy. Qed.

Lemma Rltb_false (a b : R) : Rltb a b = false <-> b <= a.
Proof.
  unfold Rltb; destruct (Rlt_dec a b); split; intros; try easy; lra.
Qed.

Lemma Reqb_true (a b : R) : Reqb a b = true <-> a = b.
Proof. unfold Reqb; destruct (Req_dec_T a b); split; intros; try easy. Qed.

Lemma Reqb_false (a b : R) : Reqb a b = false <-> a <> b.
Proof. unfold Reqb; destruct (Req_dec_T a b); split; intros; try easy. Qed.

(** Decides a comparison of two real expressions inside a goal. *)
Ltac rcmp a b :=
  let H := fresh "Hc" in
  destruct (Rlt_dec a b) as [H | H].

Ltac rdecide :=
  repeat match goal with
    | |- context [Rltb ?a ?b] =>
        first [ rewrite (proj2 (Rltb_true a b)) by lra
              | rewrite (proj2 (Rltb_false a b)) by lra ]
    | |- context [Reqb ?a ?b] =>
        first [ rewrite (proj2 (Reqb_true a b)) by lra
              | rewrite (proj2 (Reqb_false a b)) by lra ]
    end.

(** Evaluates float operations on finite arguments, settling every
    comparison the hypotheses decide. *)
Ltac fsimpl := repeat (progress (cbn; rdecide)).

Lemma IsValid_finite (p : Point3D) : IsValid p = true <-> finite p.
Proof.
  split.
  - destruct p as [[x| | |] [y| | |] [z| | |]]; cbn; try discriminate.
    intros _. now exists x, y, z.
  - intros (x & y & z & ->). reflexivity.
Qed.

Lemma IsValid_not_finite (p : Point3D) : IsValid p = false <-> ~ finite p.
Proof.
  rewrite <- IsValid_finite.
  destruct (IsValid p); split; intros H; try easy; now elim H.
Qed.

Lemma vectorSubtract_pt a b c x y z :
  vectorSubtract (pt a b c) (pt x y z) = pt (a - x) (b - y) (c - z).
Proof.
  unfold vectorSubtract, pt; cbn. f_equal; f_equal; lra.
Qed.

Lemma vectorCross_pt a b c x y z :
  vectorCross (pt a b c) (pt x y z)
  = pt (b * z - c * y) (c * x - a * z) (a * y - b * x).
Proof.
  unfold vectorCross, pt; cbn. f_equal; f_equal; lra.
Qed.

Lemma isZeroVector_pt a b c :
  isZeroVector (pt a b c) = true
  <-> Rabs a < / 10000000000 /\ Rabs b < / 10000000000
      /\ Rabs c < / 10000000000.
Proof.
  unfold isZeroVector, pt; cbn.
  rewrite !andb_true_iff, !Rltb_true. tauto.
Qed.

Lemma sumsq_pos_of_nonzero a b c :
  isZeroVector (pt a b c) = false -> 0 < a * a + b * b + c * c.
Proof.
  intros H.
  assert (Hn : ~ (a = 0 /\ b = 0 /\ c = 0)).
  { intros (-> & -> & ->).
    assert (isZeroVector (pt 0 0 0) = true) as E.
    { apply isZeroVector_pt. rewrite Rabs_R0. lra. }
    congruence. }
  destruct (Req_dec a 0) as [Ha | Ha];
    destruct (Req_dec b 0) as [Hb | Hb];
    destruct (Req_dec c 0) as [Hc | Hc]; try tauto; nra.
Qed.

Lemma magnitude_pt a b c :
  magnitude (pt a b c) = Fin (sqrt (a * a + b * b + c * c)).
Proof.
  unfold magnitude, pt; cbn.
  assert (0 <= a * a + b * b + c * c) by nra.
  now rdecide.
Qed.

Lemma normalizeVector_pt a b c :
  0 < a * a + b * b + c * c ->
  let l := sqrt (a * a + b * b + c * c) in
  normalizeVector (pt a b c) = pt (a / l) (b / l) (c / l).
Proof.
  intros Hpos l. unfold normalizeVector. rewrite magnitude_pt.
  fold l. assert (0 < l) by (apply sqrt_lt_R0; exact Hpos).
  unfold gtb, pt; cbn. now rdecide.
Qed.

Lemma normalize_unit a b c :
  0 < a * a + b * b + c * c ->
  magnitude (normalizeVector (pt a b c)) = Fin 1.
Proof.
  intros Hpos. rewrite normalizeVector_pt by exact Hpos. cbv zeta.
  set (s := a * a + b * b + c * c) in *.
  assert (Hl : 0 < sqrt s) by (apply sqrt_lt_R0; exact Hpos).
  rewrite magnitude_pt. f_equal.
  replace (a / sqrt s * (a / sqrt s) + b / sqrt s * (b / sqrt s)
           + c / sqrt s * (c / sqrt s))
    with (s / (sqrt s * sqrt s)) by (unfold s in *; field; lra).
  rewrite sqrt_sqrt by lra.
  replace (s / s) with 1 by (field; lra). apply sqrt_1.
Qed.

Lemma normalize_dot a b c x y z :
  0 < a * a + b * b + c * c ->
  a * x + b * y + c * z = 0 ->
  dot (normalizeVector (pt a b c)) (pt x y z) = Fin 0.
Proof.
  intros Hpos Hz. rewrite normalizeVector_pt by exact Hpos. cbv zeta.
  set (s := a * a + b * b + c * c) in *.
  assert (Hl : 0 < sqrt s) by (apply sqrt_lt_R0; exact Hpos).
  unfold dot, pt; cbn. f_equal.
  replace (a / sqrt s * x + b / sqrt s * y + c / sqrt s * z)
    with ((a * x + b * y + c * z) / sqrt s) by (field; lra).
  rewrite Hz. field. lra.
Qed.

(** What [calculateNormal] does on its two paths. *)
Lemma calculateNormal_valid p1 p2 p3 :
  IsValid p1 = true -> IsValid p2 = true -> IsValid p3 = true ->
  calculateNormal p1 p2 p3 =
    let normal := vectorCross (vectorSubtract p2 p1) (vectorSubtract p3 p1) in
    if isZeroVector normal
    then Error (New ValidationError "degenerate triangle" None)
    else Ok (normalizeVector normal).
Proof.
  intros H1 H2 H3. unfold calculateNormal, validateAll, validateVector.
  now rewrite H1, H2, H3.
Qed.

Lemma calculateNormal_invalid p1 p2 p3 :
  IsValid p1 && IsValid p2 && IsValid p3 = false ->
  calculateNormal p1 p2 p3 =
    Error (New ValidationError "vector contains invalid components" None).
Proof.
  unfold calculateNormal, validateAll, validateVector.
  destruct (IsValid p1), (IsValid p2), (IsValid p3); cbn; easy.
Qed.

Lemma isZeroVector_false_pt a b c :
  / 10000000000 <= Rabs a \/ / 10000000000 <= Rabs b
  \/ / 10000000000 <= Rabs c ->
  isZeroVector (pt a b c) = false.
Proof.
  intros H. destruct (isZeroVector (pt a b c)) eqn:E; [| reflexivity].
  apply isZeroVector_pt in E. lra.
Qed.

Lemma sqrt_one_sq : sqrt (0 * 0 + 0 * 0 + 1 * 1) = 1.
Proof. replace (0 * 0 + 0 * 0 + 1 * 1) with 1 by lra. apply sqrt_1. Qed.

Lemma calculateNormal_Ok_inv p1 p2 p3 r :
  calculateNormal p1 p2 p3 = Ok r ->
  finite p1 /\ finite p2 /\ finite p3
  /\ isZeroVector (vectorCross (vectorSubtract p2 p1) (vectorSubtract p3 p1))
     = false
  /\ r = normalizeVector
           (vectorCross (vectorSubtract p2 p1) (vectorSubtract p3 p1)).
Proof.
  intros H.
  destruct (IsValid p1 && IsValid p2 && IsValid p3) eqn:V.
  - apply andb_true_iff in V as [V V3]. apply andb_true_iff in V as [V1 V2].
    rewrite calculateNormal_valid in H by assumption. cbv zeta in H.
    rewrite <- !IsValid_finite. repeat split; try assumption.
    + destruct (isZeroVector _); [discriminate | reflexivity].
    + destruct (isZeroVector _); [discriminate | congruence].
  - rewrite calculateNormal_invalid in H by assumption. discriminate.
Qed.

Lemma calculateNormal_Ok_unit p1 p2 p3 r :
  calculateNormal p1 p2 p3 = Ok r ->
  r = normalizeVector
        (vectorCross (vectorSubtract p2 p1) (vectorSubtract p3 p1))
  /\ magnitude r = Fin 1
  /\ dot r (vectorSubtract p2 p1) = Fin 0
  /\ dot r (vectorSubtract p3 p1) = Fin 0.
Proof.
  intros Hr. apply calculateNormal_Ok_inv in Hr
    as ((a1 & b1 & c1 & ->) & (a2 & b2 & c2 & ->) & (a3 & b3 & c3 & ->)
        & Hz & ->).
  rewrite !vectorSubtract_pt, vectorCross_pt in *.
  pose proof (sumsq_pos_of_nonzero _ _ _ Hz) as Hpos.
  repeat split.
  - now apply normalize_unit.
  - apply normalize_dot; [exact Hpos | ring].
  - apply normalize_dot; [exact Hpos | ring].
Qed.

Lemma calculateNormal_axes :
  calculateNormal (pt 0 0 0) (pt 1 0 0) (pt 0 1 0) = Ok (pt 0 0 1).
Proof.
  rewrite calculateNormal_valid by reflexivity. cbv zeta.
  rewrite !vectorSubtract_pt, vectorCross_pt.
  replace (pt ((0 - 0) * (0 - 0) - (0 - 0) * (1 - 0))
              ((0 - 0) * (0 - 0) - (1 - 0) * (0 - 0))
              ((1 - 0) * (1 - 0) - (0 - 0) * (0 - 0)))
    with (pt 0 0 1) by (unfold pt; f_equal; f_equal; lra).
  rewrite isZeroVector_false_pt
    by (right; right; rewrite Rabs_R1; lra).
  rewrite normalizeVector_pt by lra. cbv zeta.
  rewrite sqrt_one_sq. unfold pt; do 3 f_equal; lra.
Qed.



(* ------------------------------------------------------------------ *)
(** ** Height normalisation *)

Lemma NormalizeContribution_scaled (count maxCount : Z) :
  (0 < count)%Z -> (0 < maxCount)%Z ->
  NormalizeContribution count maxCount
  = Fin (5 / 2 + sqrt (IZR count) / sqrt (IZR maxCount) * (25 + - (5 / 2))).
Proof.
  intros Hc Hm. unfold NormalizeContribution.
  destruct (Z.eqb_spec count 0); [lia |].
  destruct (Z.leb_spec maxCount 0); [lia |].
  assert (0 < IZR count) by (apply IZR_lt; lia).
  assert (0 < IZR maxCount) by (apply IZR_lt; lia).
  assert (0 < sqrt (IZR maxCount)) by (now apply sqrt_lt_R0).
  unfold MinHeight, MaxHeight, CellSize, of_int. fsimpl. reflexivity.
Qed.

Lemma NormalizeContribution_range (count maxCount : Z) :
  (0 <= count)%Z ->
  exists h, NormalizeContribution count maxCount = Fin h /\ 0 <= h
            /\ ((0 < count)%Z -> 5 / 2 <= h).
Proof.
  intros Hc.
  destruct (Z.eq_dec count 0) as [-> | Hn].
  - exists 0. repeat split; try lra. lia.
  - destruct (Z_le_gt_dec maxCount 0) as [Hm | Hm].
    + exists (5 / 2). unfold NormalizeContribution.
      destruct (Z.eqb_spec count 0); [lia |].
      destruct (Z.leb_spec maxCount 0); [| lia].
      repeat split; try lra.
    + rewrite NormalizeContribution_scaled by lia.
      assert (0 <= sqrt (IZR count)) by apply sqrt_pos.
      assert (0 < sqrt (IZR maxCount))
        by (apply sqrt_lt_R0, IZR_lt; lia).
      assert (0 <= sqrt (IZR count) / sqrt (IZR maxCount)).
      { apply Rmult_le_pos; [assumption |].
        left. now apply Rinv_0_lt_compat. }
      eexists; split; [reflexivity |]. split; [nra | intros _; nra].
Qed.



(* ------------------------------------------------------------------ *)
(** ** Quads and boxes *)

Lemma CreateQuad_Ok_inv v1 v2 v3 v4 ts :
  CreateQuad v1 v2 v3 v4 = Ok ts ->
  exists normal,
    calculateNormal v1 v2 v3 = Ok normal
    /\ ts = [ {| Normal := normal; V1 := v1; V2 := v2; V3 := v3 |};
              {| Normal := normal; V1 := v1; V2 := v3; V3 := v4 |} ].
Proof.
  unfold CreateQuad. destruct (calculateNormal v1 v2 v3) as [n | e].
  - intros H. inversion H. now exists n.
  - discriminate.
Qed.

(** [CreateQuad] on finite first three corners: only the cross product of
    the first triangle decides. *)
Lemma CreateQuad_finite v1 v2 v3 v4 :
  finite v1 -> finite v2 -> finite v3 ->
  CreateQuad v1 v2 v3 v4 =
    let n := vectorCross (vectorSubtract v2 v1) (vectorSubtract v3 v1) in
    if isZeroVector n then Error quadDegenerate
    else Ok [ {| Normal := normalizeVector n; V1 := v1; V2 := v2; V3 := v3 |};
              {| Normal := normalizeVector n; V1 := v1; V2 := v3; V3 := v4 |} ].
Proof.
  intros F1 F2 F3. apply IsValid_finite in F1, F2, F3.
  unfold CreateQuad. rewrite calculateNormal_valid by assumption. cbv zeta.
  destruct (isZeroVector _); reflexivity.
Qed.

Lemma boxLoop_Ok_inv vertices qs acc ts :
  boxLoop vertices qs acc = Ok ts ->
  ts = acc ++ flat_map (faceTriangles vertices) qs
  /\ Forall (fun q => let '(a, b, c, _) := q in
               exists n, calculateNormal (vertexAt vertices a)
                           (vertexAt vertices b) (vertexAt vertices c) = Ok n)
            qs.
Proof.
  revert acc. induction qs as [| [[[a b] c] d] qs IH]; intros acc H; cbn in H.
  - inversion H. rewrite app_nil_r. split; [reflexivity | constructor].
  - destruct (CreateQuad _ _ _ _) as [quadTriangles | e] eqn:Q;
      [| discriminate].
    apply CreateQuad_Ok_inv in Q as (n & Hn & ->).
    apply IH in H as [-> Hall]. split.
    + rewrite <- app_assoc. f_equal. cbn [flat_map faceTriangles].
      apply calculateNormal_Ok_inv in Hn as (_ & _ & _ & _ & ->).
      reflexivity.
    + constructor; [now exists n | exact Hall].
Qed.

Lemma boxLoop_all_ok vertices qs acc :
  Forall (fun q => let '(a, b, c, d) := q in
            CreateQuad (vertexAt vertices a) (vertexAt vertices b)
                       (vertexAt vertices c) (vertexAt vertices d)
            = Ok (faceTriangles vertices q)) qs ->
  boxLoop vertices qs acc = Ok (acc ++ flat_map (faceTriangles vertices) qs).
Proof.
  intros H. revert acc.
  induction H as [| [[[a b] c] d] qs Hq _ IH]; intros acc; cbn [boxLoop].
  - now rewrite app_nil_r.
  - rewrite Hq, IH. now rewrite <- app_assoc.
Qed.

Lemma boxLoop_degenerate vertices qs acc :
  Forall (fun q => let '(a, b, c, d) := q in
            CreateQuad (vertexAt vertices a) (vertexAt vertices b)
                       (vertexAt vertices c) (vertexAt vertices d)
            = Ok (faceTriangles vertices q)
            \/ CreateQuad (vertexAt vertices a) (vertexAt vertices b)
                       (vertexAt vertices c) (vertexAt vertices d)
               = Error quadDegenerate) qs ->
  Exists (fun q => let '(a, b, c, d) := q in
            CreateQuad (vertexAt vertices a) (vertexAt vertices b)
                       (vertexAt vertices c) (vertexAt vertices d)
            = Error quadDegenerate) qs ->
  boxLoop vertices qs acc = Error boxDegenerate.
Proof.
  intros Hall. revert acc.
  induction Hall as [| [[[a b] c] d] qs Hq _ IH]; intros acc Hex.
  - inversion Hex.
  - cbn [boxLoop]. destruct Hq as [Hq | Hq]; rewrite Hq; [| reflexivity].
    apply IH. inversion Hex as [? ? Hh | ? ? Ht]; subst; [| exact Ht].
    congruence.
Qed.

(** The corners of a box with finite origin and dimensions. *)
Lemma boxVertices_pt x y z w h d :
  boxVertices (Fin x) (Fin y) (Fin z) (Fin w) (Fin h) (Fin d)
  = [ pt x y z; pt (x + w) y z; pt (x + w) (y + h) z; pt x (y + h) z;
      pt x y (z + d); pt (x + w) y (z + d); pt (x + w) (y + h) (z + d);
      pt x (y + h) (z + d) ].
Proof. reflexivity. Qed.

(** Every row of the face table, on finite corners, either yields its two
    triangles or the degenerate-triangle error. *)
Lemma box_faces_finite x y z w h d :
  let vs := boxVertices (Fin x) (Fin y) (Fin z) (Fin w) (Fin h) (Fin d) in
  Forall (fun q => let '(a, b, c, d) := q in
            CreateQuad (vertexAt vs a) (vertexAt vs b)
                       (vertexAt vs c) (vertexAt vs d)
            = Ok (faceTriangles vs q)
            \/ CreateQuad (vertexAt vs a) (vertexAt vs b)
                          (vertexAt vs c) (vertexAt vs d)
               = Error quadDegenerate) quads.
Proof.
  cbv zeta. rewrite boxVertices_pt. unfold quads.
  repeat (apply Forall_cons;
          [ cbn beta iota; unfold vertexAt; cbn [nth];
            rewrite CreateQuad_finite by (eexists _, _, _; reflexivity);
            cbv zeta; destruct (isZeroVector _); [right | left]; reflexivity
          | ]).
  apply Forall_nil.
Qed.

Lemma createBox_nonneg x y z w h d :
  0 <= w -> 0 <= h -> 0 <= d ->
  createBox (Fin x) (Fin y) (Fin z) (Fin w) (Fin h) (Fin d)
  = boxLoop (boxVertices (Fin x) (Fin y) (Fin z) (Fin w) (Fin h) (Fin d))
            quads [].
Proof.
  intros Hw Hh Hd. unfold createBox. cbn [ltb]. now rdecide.
Qed.

Lemma createBox_negative x y z w h d :
  w < 0 \/ h < 0 \/ d < 0 ->
  createBox (Fin x) (Fin y) (Fin z) (Fin w) (Fin h) (Fin d)
  = Error negativeDimensions.
Proof.
  intros H. unfold createBox. cbn [ltb].
  assert (E : Rltb w 0 || Rltb h 0 || Rltb d 0 = true).
  { rewrite !orb_true_iff, !Rltb_true. tauto. }
  now rewrite E.
Qed.

(** Brings the cross product of a face, in a hypothesis about
    [isZeroVector], to bounds on its three components. *)
Ltac face_bounds E :=
  rewrite !vectorSubtract_pt, vectorCross_pt in E;
  apply isZeroVector_pt in E;
  let E1 := fresh "E" in
  let E2 := fresh "E" in
  let E3 := fresh "E" in
  destruct E as (E1 & E2 & E3);
  apply Rabs_def2 in E1, E2, E3.

Ltac face_zero :=
  rewrite !vectorSubtract_pt, vectorCross_pt;
  apply isZeroVector_pt;
  repeat split; apply Rabs_def1; nra.

Lemma createBox_flat x y z w h d :
  0 <= w -> 0 <= h -> 0 <= d -> w = 0 \/ h = 0 \/ d = 0 ->
  createBox (Fin x) (Fin y) (Fin z) (Fin w) (Fin h) (Fin d)
  = Error boxDegenerate.
Proof.
  intros Hw Hh Hd Hz. rewrite createBox_nonneg by assumption.
  apply boxLoop_degenerate; [apply box_faces_finite |].
  rewrite boxVertices_pt. unfold quads.
  assert (Hcase : w * h = 0 \/ d = 0) by (destruct Hz as [-> | [-> | ->]];
                                           [left | left | right]; lra).
  destruct Hcase as [Hwh | ->].
  - apply Exists_cons_hd. cbn beta iota. unfold vertexAt; cbn [nth].
    rewrite CreateQuad_finite by (eexists _, _, _; reflexivity). cbv zeta.
    assert (E : isZeroVector
                  (vectorCross (vectorSubtract (pt (x + w) y z) (pt x y z))
                     (vectorSubtract (pt (x + w) (y + h) z) (pt x y z)))
                = true) by face_zero.
    now rewrite E.
  - do 2 apply Exists_cons_tl. apply Exists_cons_hd.
    cbn beta iota. unfold vertexAt; cbn [nth].
    rewrite CreateQuad_finite by (eexists _, _, _; reflexivity). cbv zeta.
    assert (E : isZeroVector
                  (vectorCross (vectorSubtract (pt x y z) (pt x y (z + 0)))
                     (vectorSubtract (pt x (y + h) z) (pt x y (z + 0))))
                = true) by face_zero.
    now rewrite E.
Qed.

Lemma createBox_solid x y z w h d :
  0 < w -> 0 < h -> 0 < d ->
  / 10000000000 <= w * h -> / 10000000000 <= h * d ->
  / 10000000000 <= w * d ->
  createBox (Fin x) (Fin y) (Fin z) (Fin w) (Fin h) (Fin d)
  = Ok (flat_map
          (faceTriangles
             (boxVertices (Fin x) (Fin y) (Fin z) (Fin w) (Fin h) (Fin d)))
          quads).
Proof.
  intros Hw Hh Hd Hwh Hhd Hwd. rewrite createBox_nonneg by lra.
  rewrite boxLoop_all_ok; [reflexivity |].
  rewrite boxVertices_pt. unfold quads.
  repeat (apply Forall_cons;
          [ cbn beta iota; unfold vertexAt; cbn [nth];
            rewrite CreateQuad_finite by (eexists _, _, _; reflexivity);
            cbv zeta;
            match goal with
            | |- (if isZeroVector ?n then _ else _) = _ =>
                let E := fresh "E" in
                destruct (isZeroVector n) eqn:E;
                [ exfalso; face_bounds E; nra | reflexivity ]
            end
          | ]).
  apply Forall_nil.
Qed.

Lemma faces_unit vertices qs :
  Forall (fun q => let '(a, b, c, _) := q in
            exists n, calculateNormal (vertexAt vertices a)
                        (vertexAt vertices b) (vertexAt vertices c) = Ok n)
         qs ->
  Forall unitNormal (flat_map (faceTriangles vertices) qs).
Proof.
  induction 1 as [| [[[a b] c] d] qs [n Hn] _ IH]; cbn [flat_map].
  - constructor.
  - apply Forall_app. split; [| exact IH].
    destruct (calculateNormal_Ok_unit _ _ _ Hn) as (-> & Hunit & _).
    repeat constructor; exact Hunit.
Qed.

(** Whatever the arguments, a box that is built has its 12 triangles, each
    with a normal of magnitude 1. *)
Lemma createBox_Ok_shape x y z width height depth ts :
  createBox x y z width height depth = Ok ts ->
  List.length ts = 12%nat /\ Forall unitNormal ts.
Proof.
  unfold createBox. destruct (_ || _); [discriminate |].
  intros H. apply boxLoop_Ok_inv in H as [-> Hall]. split.
  - reflexivity.
  - now apply faces_unit.
Qed.

Lemma box_corners x y z w h d :
  0 < w -> 0 < h -> 0 < d ->
  let vs := boxVertices (Fin x) (Fin y) (Fin z) (Fin w) (Fin h) (Fin d) in
  NoDup vs /\ List.length vs = 8%nat
  /\ forall p, In p (meshCorners (flat_map (faceTriangles vs) quads))
               <-> In p vs.
Proof.
  intros Hw Hh Hd. cbv zeta. rewrite boxVertices_pt. repeat split.
  - repeat (apply NoDup_cons;
            [ cbn; intros Hin;
              repeat (destruct Hin as [Hin | Hin];
                      [ unfold pt in Hin; inversion Hin; lra | ]);
              exact Hin
            | ]).
    apply NoDup_nil.
  - cbn. intros Hin.
    repeat (destruct Hin as [Hin | Hin]; [ rewrite <- Hin; auto 12 | ]).
    contradiction.
  - cbn. intros Hin.
    repeat (destruct Hin as [Hin | Hin]; [ rewrite <- Hin; auto 40 | ]).
    contradiction.
Qed.




(** C6: [CreateQuad] looks at its first triangle only.  With v4 = v3 the
    second triangle v1-v3-v4 has zero area, and the call still succeeds
    and returns it. *)
Theorem CreateQuad_second_triangle_unchecked :
  let v1 := pt 0 0 0 in
  let v2 := pt 1 0 0 in
  let v3 := pt 0 1 0 in
  let degenerate := {| Normal := pt 0 0 1; V1 := v1; V2 := v3; V3 := v3 |} in
  CreateQuad v1 v2 v3 v3
  = Ok [ {| Normal := pt 0 0 1; V1 := v1; V2 := v2; V3 := v3 |}; degenerate ]
  /\ zeroArea degenerate.
Proof.
  cbv zeta. split.
  - unfold CreateQuad.
    now rewrite calculateNormal_axes.
  - unfold zeroArea; cbn [V1 V2 V3].
    rewrite !vectorSubtract_pt, vectorCross_pt.
    unfold pt; f_equal; f_equal; lra.
Qed.




(* ------------------------------------------------------------------ *)
(** ** Input validation *)

Lemma len_nil_iff {A : Type} (l : list A) : len l = 0%Z <-> l = [].
Proof.
  unfold len. destruct l; cbn; split; intros H; first [easy | lia].
Qed.

Lemma validateInput_None (contributions : Year) (outputPath username : string) :
  validateInput contributions outputPath username = None
  <-> contributions <> [] /\ (len contributions <= GridSize)%Z
      /\ outputPath <> ""%string /\ username <> ""%string.
Proof.
  unfold validateInput.
  destruct (Z.eqb_spec (len contributions) 0) as [E | E].
  - apply len_nil_iff in E. split; [discriminate | tauto].
  - rewrite Z.gtb_ltb.
    destruct (Z.ltb_spec GridSize (len contributions)).
    + split; [discriminate | lia].
    + destruct (String.eqb_spec outputPath "").
      * split; [discriminate | tauto].
      * destruct (String.eqb_spec username "").
        -- split; [discriminate | tauto].
        -- rewrite len_nil_iff in E. tauto.
Qed.

Lemma validateInput_error_type (contributions : Year)
  (outputPath username : string) (e : error) :
  validateInput contributions outputPath username = Some e ->
  TypeOf e = Some ValidationError.
Proof.
  unfold validateInput.
  repeat match goal with
         | |- context [if ?c then _ else _] => destruct c
         end; intros H; inversion H; reflexivity.
Qed.

Lemma validateInput_first_year (contributions : Year)
  (outputPath username : string) :
  contributions = [] \/ (len contributions > GridSize)%Z ->
  exists e, validateInput contributions outputPath username = Some e.
Proof.
  intros H.
  destruct (validateInput contributions outputPath username) eqn:E.
  - now eexists.
  - apply validateInput_None in E. destruct H as [H | H]; [tauto | lia].
Qed.

Lemma Wrap1_keeps_type (e : error) (message : string) (t : ErrorType) :
  TypeOf e = Some t -> TypeOf (Wrap1 e message) = Some t.
Proof. destruct e; cbn; intros H; [exact H | discriminate]. Qed.

Lemma calculateDimensions_positive (yearCount : Z) :
  (0 < yearCount)%Z ->
  exists w d,
    calculateDimensions yearCount
    = Ok {| innerWidth := Fin w; innerDepth := Fin d;
            imagePath := "assets/invertocat.png" |}
    /\ 135 <= w /\ 20 <= d.
Proof.
  intros Hn. unfold calculateDimensions.
  destruct (Z.leb_spec yearCount 0); [lia |].
  assert (Hd : forall n, (7 <= n)%Z -> 7 <= IZR n)
    by (intros n Hle; apply (IZR_le 7); exact Hle).
  assert (7 <= IZR (7 * yearCount)) by (apply Hd; lia).
  destruct (Z.leb_spec yearCount 1);
    do 2 eexists;
    (split;
     [ cbn -[Z.mul]; unfold GridSize; try change (7 * 1)%Z with 7%Z;
       rdecide; cbn -[Z.mul]; reflexivity
     | split; lra ]).
Qed.

Lemma len_cons_positive {A : Type} (a : A) (l : list A) : (0 < len (a :: l))%Z.
Proof. unfold len. cbn [List.length]. lia. Qed.

(** Once validation is passed the geometry is attempted, whatever the
    rest of the run does. *)
Lemma generateAndWrite_attempts_geometry env first rest outputPath username
  startYear endYear :
  In GeometryStarted
     (trace (generateAndWrite env (first :: rest) outputPath username
                              startYear endYear)).
Proof.
  unfold generateAndWrite.
  destruct (calculateDimensions_positive (len_cons_positive first rest))
    as (w & d & -> & _).
  destruct (generateModelGeometry _ _ _ _ _ _ _); cbn; auto.
  repeat match goal with
         | |- context [match ?c with Some _ => _ | None => _ end] =>
             destruct c; cbn; auto
         end.
Qed.

(** C3 (as written, refuted): with zero years the run is not rejected with
    a validation error, it panics on [contributions[0]]; and an input of 54
    years, more than the grid size, passes validation and goes on to the
    geometry. *)
Lemma validation_counterexample :
  let env := envWith [] [] componentNames in
  returned (GenerateSTLRange env [] "out.stl" "user" 2023 2023) = Panicked
  /\ (len (repeat smallYear 54) > GridSize)%Z
  /\ In GeometryStarted
        (trace (GenerateSTLRange env (repeat smallYear 54) "out.stl" "user"
                                 2021 2023)).
Proof.
  cbv zeta. split; [reflexivity |]. split; [reflexivity |].
  change (repeat smallYear 54) with (smallYear :: repeat smallYear 53).
  unfold GenerateSTLRange.
  change (Debug (log (envWith [] [] componentNames))) with (@None error).
  change (validateInput smallYear "out.stl" "user") with (@None error).
  cbv iota. apply generateAndWrite_attempts_geometry.
Qed.

(** C3 (amended): when the input has at least one year and the first year
    is empty or has more weeks than the grid size, [GenerateSTLRange]
    returns a validation error before any geometry is attempted: nothing
    is generated and nothing is written.  (The opening debug message is
    assumed to be logged without error.) *)
Theorem validation_rejects_first_year env (first : Year) (rest : list Year)
  outputPath username startYear endYear :
  Debug (log env) = None ->
  first = [] \/ (len first > GridSize)%Z ->
  exists e,
    GenerateSTLRange env (first :: rest) outputPath username startYear endYear
    = {| returned := Failed e; trace := [] |}
    /\ TypeOf e = Some ValidationError.
Proof.
  intros Hlog Hfirst. unfold GenerateSTLRange. rewrite Hlog.
  destruct (validateInput_first_year outputPath username Hfirst) as [e He].
  rewrite He. eexists. split; [reflexivity |].
  apply Wrap1_keeps_type. eapply validateInput_error_type. exact He.
Qed.

(** A single empty year, as in the test suite. *)
Lemma validation_rejects_first_year_witness :
  exists e,
    GenerateSTLRange (envWith [] [] componentNames) [[]] "out.stl" "user"
                     2023 2023
    = {| returned := Failed e; trace := [] |}
    /\ TypeOf e = Some ValidationError.
Proof.
  apply validation_rejects_first_year.
  - reflexivity.
  - left. reflexivity.
Defined.

(** C10: only the first year is validated.  When the first year passes
    [validateInput], the run continues with all the years as they are,
    whatever the later ones contain, and reaches the geometry; and with
    zero years the access to [contributions[0]] panics before
    [validateInput] is called, whatever the other arguments. *)
Theorem validation_covers_first_year_only env (first : Year)
  (rest : list Year) outputPath username startYear endYear :
  Debug (log env) = None ->
  first <> [] -> (len first <= GridSize)%Z ->
  outputPath <> ""%string -> username <> ""%string ->
  GenerateSTLRange env (first :: rest) outputPath username startYear endYear
  = generateAndWrite env (first :: rest) outputPath username startYear endYear
  /\ In GeometryStarted
        (trace (GenerateSTLRange env (first :: rest) outputPath username
                                 startYear endYear))
  /\ GenerateSTLRange env [] outputPath username startYear endYear
     = {| returned := Panicked; trace := [] |}
  /\ GenerateSTLRange env [] "" "" startYear endYear
     = {| returned := Panicked; trace := [] |}.
Proof.
  intros Hlog Hne Hlen Hpath Huser.
  assert (Hv : validateInput first outputPath username = None)
    by (apply validateInput_None; tauto).
  assert (Hrun : GenerateSTLRange env (first :: rest) outputPath username
                   startYear endYear
                 = generateAndWrite env (first :: rest) outputPath username
                     startYear endYear).
  { unfold GenerateSTLRange. now rewrite Hlog, Hv. }
  split; [exact Hrun |]. split.
  - rewrite Hrun. apply generateAndWrite_attempts_geometry.
  - unfold GenerateSTLRange. rewrite Hlog. split; reflexivity.
Qed.

(** A valid first year followed by an empty year and by a year of 54
    weeks. *)
Lemma validation_covers_first_year_only_witness :
  let env := envWith [] [] componentNames in
  let years := [smallYear; []; repeat [day 1] 54] in
  GenerateSTLRange env years "out.stl" "user" 2021 2023
  = generateAndWrite env years "out.stl" "user" 2021 2023
  /\ In GeometryStarted
        (trace (GenerateSTLRange env years "out.stl" "user" 2021 2023)).
Proof.
  cbv zeta.
  pose proof (@validation_covers_first_year_only
                (envWith [] [] componentNames) smallYear
                [[]; repeat [day 1] 54] "out.stl" "user" 2021 2023) as H.
  destruct H as (H1 & H2 & _).
  - reflexivity.
  - discriminate.
  - unfold len, GridSize; cbn; lia.
  - discriminate.
  - discriminate.
  - split; [exact H1 | exact H2].
Defined.

(* ------------------------------------------------------------------ *)
(** ** The assembler *)

Lemma generateModelGeometry_collect env first rest dims maxContrib username
  startYear endYear :
  generateModelGeometry env (first :: rest) dims maxContrib username
                        startYear endYear
  = collect (rangeOrder env)
            (channelsOf env (first :: rest) dims maxContrib username
                        startYear endYear) [].
Proof.
  unfold generateModelGeometry.
  destruct (Z.eqb_spec (len (first :: rest)) 0) as [E | _].
  - pose proof (len_cons_positive first rest). lia.
  - reflexivity.
Qed.

Lemma collect_Done_inv order channels acc ts :
  collect order channels acc = Done ts ->
  ts = acc ++ flat_map (delivered channels) order.
Proof.
  revert acc. induction order as [| name order IH]; intros acc H; cbn in H.
  - inversion H. now rewrite app_nil_r.
  - cbn [flat_map]. unfold delivered at 1.
    destruct (channels name) as [r |]; [| discriminate].
    destruct (err r); [discriminate |].
    apply IH in H. now rewrite app_assoc.
Qed.

Lemma collect_all_sent order channels acc :
  Forall (fun name => exists r, channels name = Some r /\ err r = None) order ->
  collect order channels acc
  = Done (acc ++ flat_map (delivered channels) order).
Proof.
  intros H. revert acc.
  induction H as [| name order (r & Hr & He) _ IH]; intros acc; cbn.
  - now rewrite app_nil_r.
  - unfold delivered at 1. rewrite Hr, He, IH. now rewrite app_assoc.
Qed.

Lemma columnsLoop_sends env reversed yearOffset maxContrib acc :
  Warning (log env) = None ->
  exists ts, columnsLoop env reversed yearOffset maxContrib acc = Some ts.
Proof.
  intros Hw. revert yearOffset acc.
  induction reversed as [| year rest IH]; intros yearOffset acc; cbn.
  - now eexists.
  - destruct (CreateContributionGeometry year yearOffset maxContrib).
    + apply IH.
    + rewrite Hw. apply IH.
Qed.

Lemma degraded_quiet env :
  Warning (log env) = None ->
  degraded env = {| triangles := []; err := None |}.
Proof. intros H. unfold degraded. now rewrite H. Qed.

(** When warnings can be written, every producer sends a result without
    an error. *)
Lemma producers_send env years dims maxContrib username startYear endYear :
  Warning (log env) = None ->
  forall name, In name componentNames ->
  exists r, channelsOf env years dims maxContrib username startYear endYear
                       name = Some r
            /\ err r = None.
Proof.
  intros Hw name Hin. unfold componentNames in Hin. cbn in Hin.
  destruct Hin as [<- | [<- | [<- | [<- | []]]]]; cbn.
  - unfold generateBase. destruct (CreateCuboidBase _ _).
    + now eexists.
    + rewrite degraded_quiet by exact Hw. now eexists.
  - unfold generateColumnsForYearRange.
    destruct (@columnsLoop_sends env (rev years) 0%Z maxContrib [] Hw)
      as [ts ->].
    now eexists.
  - unfold generateText. destruct (Create3DText _ _ _ _ _).
    + now eexists.
    + rewrite degraded_quiet by exact Hw. now eexists.
  - unfold generateLogo. destruct (GenerateImageGeometry _ _ _).
    + now eexists.
    + rewrite degraded_quiet by exact Hw. now eexists.
Qed.

Lemma generateModelGeometry_Done env first rest dims maxContrib username
  startYear endYear :
  Warning (log env) = None ->
  incl (rangeOrder env) componentNames ->
  generateModelGeometry env (first :: rest) dims maxContrib username
                        startYear endYear
  = Done (flat_map
            (delivered (channelsOf env (first :: rest) dims maxContrib
                                   username startYear endYear))
            (rangeOrder env)).
Proof.
  intros Hw Hincl. rewrite generateModelGeometry_collect.
  rewrite collect_all_sent; [reflexivity |].
  apply Forall_forall. intros name Hin.
  apply producers_send; [exact Hw | now apply Hincl].
Qed.

Lemma CreateCuboidBase_negative w d :
  w < 0 -> CreateCuboidBase (Fin w) (Fin d) = Error negativeDimensions.
Proof.
  intros H. unfold CreateCuboidBase, BaseHeight. cbn [neg].
  apply createBox_negative. now left.
Qed.


Lemma run_of_failed_geometry env first rest outputPath username startYear
  endYear dims e :
  Debug (log env) = None ->
  validateInput first outputPath username = None ->
  calculateDimensions (len (first :: rest)) = Ok dims ->
  generateModelGeometry env (first :: rest) dims
    (findMaxContributionsAcrossYears (first :: rest)) username
    startYear endYear = Failed e ->
  GenerateSTLRange env (first :: rest) outputPath username startYear endYear
  = {| returned := Failed (Wrap1 e "failed to generate geometry");
       trace := [GeometryStarted] |}.
Proof.
  intros Hlog Hv Hd Hg. unfold GenerateSTLRange. rewrite Hlog, Hv.
  unfold generateAndWrite. rewrite Hd, Hg. reflexivity.
Qed.



(* ------------------------------------------------------------------ *)
(** ** Order of the assembled mesh *)

(** C8 (as written, refuted): the order of the assembled mesh follows the
    iteration order of the map of channels.  For the same input and the
    same producer outputs, an iteration that reaches "text" before
    "image" and one that reaches "image" first hand different triangle
    sequences to the writer. *)
Lemma assembly_order_counterexample :
  let env := envWith [flatTriangle 0] [flatTriangle 5] in
  let run order :=
    generateModelGeometry (env order) [idleYear] oneYearDimensions 0
                          "user" 2023 2023 in
  exists ts1 ts2,
    run ["base"; "columns"; "text"; "image"]%string = Done ts1
    /\ run ["base"; "columns"; "image"; "text"]%string = Done ts2
    /\ ts1 <> ts2.
Proof.
  cbv zeta. do 2 eexists. split; [| split].
  - apply generateModelGeometry_Done; [reflexivity | apply incl_refl].
  - apply generateModelGeometry_Done; [reflexivity |].
    intros name Hin. cbn in Hin |- *. tauto.
  - cbn [rangeOrder envWith flat_map]. intros H.
    do 2 apply app_inv_head in H.
    cbv [delivered channelsOf] in H. cbn in H.
    inversion H as [Heq]. lra.
Qed.

Lemma columnsLoop_withOrder env order reversed yearOffset maxContrib acc :
  columnsLoop (withOrder env order) reversed yearOffset maxContrib acc
  = columnsLoop env reversed yearOffset maxContrib acc.
Proof.
  revert yearOffset acc.
  induction reversed as [| year rest IH]; intros yearOffset acc; cbn.
  - reflexivity.
  - destruct (CreateContributionGeometry year yearOffset maxContrib).
    + apply IH.
    + destruct (Warning (log env)); [reflexivity | apply IH].
Qed.

(** The producers do not depend on the iteration order. *)
Lemma channelsOf_withOrder env order years dims maxContrib username
  startYear endYear name :
  channelsOf (withOrder env order) years dims maxContrib username
             startYear endYear name
  = channelsOf env years dims maxContrib username startYear endYear name.
Proof.
  unfold channelsOf, generateColumnsForYearRange.
  rewrite columnsLoop_withOrder. reflexivity.
Qed.

Lemma delivered_withOrder env order years dims maxContrib username
  startYear endYear (names : list string) :
  flat_map (delivered (channelsOf (withOrder env order) years dims maxContrib
                                  username startYear endYear)) names
  = flat_map (delivered (channelsOf env years dims maxContrib username
                                    startYear endYear)) names.
Proof.
  apply flat_map_ext. intros name. unfold delivered.
  now rewrite channelsOf_withOrder.
Qed.

(** C8 (amended): the assembled mesh is the concatenation of the four
    producers' triangle lists in the order in which the run iterates over
    the map of channels.  Two runs on the same input therefore hand the
    writer the same triangles up to a permutation, and the same sequence
    when they iterate in the same order. *)
Theorem assembly_follows_range_order env first rest dims maxContrib username
  startYear endYear (o1 o2 : list string) (ts1 ts2 : list Triangle) :
  Permutation o1 componentNames -> Permutation o2 componentNames ->
  generateModelGeometry (withOrder env o1) (first :: rest) dims maxContrib
                        username startYear endYear = Done ts1 ->
  generateModelGeometry (withOrder env o2) (first :: rest) dims maxContrib
                        username startYear endYear = Done ts2 ->
  let channels := channelsOf env (first :: rest) dims maxContrib username
                             startYear endYear in
  ts1 = flat_map (delivered channels) o1
  /\ ts2 = flat_map (delivered channels) o2
  /\ Permutation ts1 ts2
  /\ (o1 = o2 -> ts1 = ts2).
Proof.
  intros P1 P2 H1 H2 channels.
  rewrite generateModelGeometry_collect in H1, H2.
  apply collect_Done_inv in H1, H2. cbn [app] in H1, H2.
  rewrite delivered_withOrder in H1, H2. fold channels in H1, H2.
  cbn [rangeOrder withOrder] in H1, H2. subst ts1 ts2.
  repeat split.
  - apply Permutation_flat_map.
    eapply Permutation_trans; [exact P1 | now apply Permutation_sym].
  - now intros ->.
Qed.

(** Two iteration orders of the four channels. *)
Lemma assembly_follows_range_order_witness :
  let env := envWith [flatTriangle 0] [flatTriangle 5] componentNames in
  exists ts1 ts2,
    generateModelGeometry
      (withOrder env ["base"; "columns"; "text"; "image"]%string)
      [idleYear] oneYearDimensions 0 "user" 2023 2023 = Done ts1
    /\ generateModelGeometry
         (withOrder env ["base"; "columns"; "image"; "text"]%string)
         [idleYear] oneYearDimensions 0 "user" 2023 2023 = Done ts2
    /\ Permutation ts1 ts2.
Proof.
  cbv zeta.
  set (env := envWith [flatTriangle 0] [flatTriangle 5] componentNames).
  assert (H1 : generateModelGeometry
                 (withOrder env ["base"; "columns"; "text"; "image"]%string)
                 [idleYear] oneYearDimensions 0 "user" 2023 2023
               = Done (flat_map
                         (delivered
                            (channelsOf
                               (withOrder env
                                  ["base"; "columns"; "text"; "image"]%string)
                               [idleYear] oneYearDimensions 0 "user" 2023 2023))
                         ["base"; "columns"; "text"; "image"]%string)).
  { apply generateModelGeometry_Done; [reflexivity | apply incl_refl]. }
  assert (H2 : generateModelGeometry
                 (withOrder env ["base"; "columns"; "image"; "text"]%string)
                 [idleYear] oneYearDimensions 0 "user" 2023 2023
               = Done (flat_map
                         (delivered
                            (channelsOf
                               (withOrder env
                                  ["base"; "columns"; "image"; "text"]%string)
                               [idleYear] oneYearDimensions 0 "user" 2023 2023))
                         ["base"; "columns"; "image"; "text"]%string)).
  { apply generateModelGeometry_Done; [reflexivity |].
    intros name Hin. cbn in Hin |- *. tauto. }
  do 2 eexists. split; [exact H1 |]. split; [exact H2 |].
  assert (P1 : Permutation ["base"; "columns"; "text"; "image"]%string
                           componentNames) by apply Permutation_refl.
  assert (P2 : Permutation ["base"; "columns"; "image"; "text"]%string
                           componentNames)
    by (do 2 apply perm_skip; apply perm_swap).
  exact (proj1 (proj2 (proj2
           (@assembly_follows_range_order env idleYear [] oneYearDimensions
              0%Z "user"%string 2023%Z 2023%Z _ _ _ _ P1 P2 H1 H2)))).
Defined.

(* ------------------------------------------------------------------ *)
(** ** Layout of the binary file *)

Section Layout.

Variable float32 : Type.
Variable toFloat32 : float64 -> float32.
Variable bits32 : float32 -> Byte.byte * Byte.byte * Byte.byte * Byte.byte.

Lemma putFloat32_length (f : float32) :
  List.length (putFloat32 bits32 f) = 4%nat.
Proof. unfold putFloat32. now destruct (bits32 f) as [[[b0 b1] b2] b3]. Qed.

Lemma putPoint_length (p : Point3DFloat32 float32) :
  List.length (putPoint bits32 p) = 12%nat.
Proof.
  unfold putPoint. rewrite !length_app, !putFloat32_length. reflexivity.
Qed.

Lemma putTriangle_length (t : TriangleFloat32 float32) :
  List.length (putTriangle bits32 t) = 50%nat.
Proof.
  unfold putTriangle. rewrite !length_app, !putPoint_length. reflexivity.
Qed.

Lemma putUint32_length (n : Z) : List.length (putUint32 n) = 4%nat.
Proof. reflexivity. Qed.

Lemma records_length (mesh : list Triangle) :
  List.length
    (flat_map (fun t => putTriangle bits32 (Triangle_ToFloat32 toFloat32 t))
              mesh)
  = (50 * List.length mesh)%nat.
Proof.
  induction mesh as [| t mesh IH]; cbn [flat_map List.length].
  - reflexivity.
  - rewrite length_app, putTriangle_length, IH. lia.
Qed.

(** In a sequence of chunks of one size, chunk [i] starts at [size * i]. *)
Lemma chunk_at {A B : Type} (f : A -> list B) (size : nat) (l : list A) :
  (forall a, List.length (f a) = size) ->
  forall i a, nth_error l i = Some a ->
  firstn size (skipn (size * i) (flat_map f l)) = f a.
Proof.
  intros Hsize. induction l as [| x l IH]; intros i a Hi.
  - destruct i; discriminate.
  - destruct i as [| i]; cbn [nth_error flat_map] in *.
    + inversion Hi; subst. rewrite Nat.mul_0_r. cbn [skipn].
      rewrite <- (Hsize a) at 1. rewrite firstn_app, Nat.sub_diag.
      cbn [firstn]. now rewrite firstn_all, app_nil_r.
    + replace (size * S i)%nat with (List.length (f x) + size * i)%nat
        by (rewrite Hsize; lia).
      rewrite skipn_app, Nat.add_comm, Nat.add_sub.
      rewrite skipn_all2 by lia. cbn [app]. now apply IH.
Qed.

Lemma byteOf_value (n : Z) :
  (0 <= n < 256)%Z -> Z.of_N (Byte.to_N (byteOf n)) = n.
Proof.
  intros Hn. unfold byteOf. rewrite Z.mod_small by lia.
  destruct (Byte.of_N (Z.to_N n)) as [b |] eqn:E.
  - apply Byte.to_of_N in E. rewrite E. lia.
  - apply Byte.of_N_None_iff in E. lia.
Qed.

Lemma byteOf_mod (n : Z) : byteOf (n mod 256) = byteOf n.
Proof. unfold byteOf. now rewrite Z.mod_mod by lia. Qed.

Lemma getUint32_putUint32 (n : Z) :
  (0 <= n < 4294967296)%Z -> getUint32 (putUint32 n) = n.
Proof.
  intros Hn. unfold putUint32, getUint32. rewrite (Z.mod_small n) by lia.
  rewrite <- (byteOf_mod n), <- (byteOf_mod (n / 256)),
    <- (byteOf_mod (n / 65536)), <- (byteOf_mod (n / 16777216)).
  rewrite !byteOf_value by (apply Z.mod_pos_bound; lia).
  pose proof (Z.div_mod n 256 ltac:(lia)).
  pose proof (Z.div_mod (n / 256) 256 ltac:(lia)).
  pose proof (Z.div_mod (n / 65536) 256 ltac:(lia)).
  assert (n / 65536 = n / 256 / 256)%Z
    by (rewrite Z.div_div by lia; reflexivity).
  assert (n / 16777216 = n / 65536 / 256)%Z
    by (rewrite Z.div_div by lia; reflexivity).
  assert (0 <= n / 16777216 < 256)%Z.
  { split; [apply Z.div_pos; lia | apply Z.div_lt_upper_bound; lia]. }
  rewrite (Z.mod_small (n / 16777216)) by lia. lia.
Qed.


End Layout.


(* ------------------------------------------------------------------ *)
(** ** Further properties: maxima and dimensions *)

Lemma fold_dayMax_spec (week : list ContributionDay) (m0 : Z) :
  let m := fold_left dayMax week m0 in
  (m0 <= m)%Z
  /\ (forall d, In d week -> (ContributionCount d <= m)%Z)
  /\ (m = m0 \/ exists d, In d week /\ ContributionCount d = m).
Proof.
  revert m0. induction week as [| d week IH]; intros m0; cbn.
  - repeat split; [lia | tauto | now left].
  - destruct (IH (dayMax m0 d)) as (H1 & H2 & H3).
    assert (Hd : (m0 <= dayMax m0 d)%Z /\ (ContributionCount d <= dayMax m0 d)%Z
                 /\ (dayMax m0 d = m0 \/ dayMax m0 d = ContributionCount d)).
    { unfold dayMax. destruct (Z.gtb_spec (ContributionCount d) m0); lia. }
    repeat split.
    + lia.
    + intros d' [<- | Hin]; [lia | now apply H2].
    + destruct H3 as [H3 | (d' & Hin & H3)].
      * destruct Hd as (_ & _ & [Hd | Hd]); [left; lia |].
        right. exists d. split; [now left | lia].
      * right. exists d'. split; [now right | exact H3].
Qed.

Lemma fold_weeks_spec (year : Year) (m0 : Z) :
  let m := fold_left (fun acc week => fold_left dayMax week acc) year m0 in
  (m0 <= m)%Z
  /\ (forall d, In d (List.concat year) -> (ContributionCount d <= m)%Z)
  /\ (m = m0 \/ exists d, In d (List.concat year) /\ ContributionCount d = m).
Proof.
  revert m0. induction year as [| week year IH]; intros m0; cbn.
  - repeat split; [lia | tauto | now left].
  - destruct (fold_dayMax_spec week m0) as (W1 & W2 & W3).
    destruct (IH (fold_left dayMax week m0)) as (H1 & H2 & H3).
    repeat split.
    + lia.
    + intros d Hin. apply in_app_or in Hin as [Hin | Hin].
      * specialize (W2 d Hin). lia.
      * now apply H2.
    + destruct H3 as [H3 | (d & Hin & H3)].
      * destruct W3 as [W3 | (d & Hin & W3)]; [left; lia |].
        right. exists d. split; [apply in_or_app; now left | lia].
      * right. exists d. split; [apply in_or_app; now right | exact H3].
Qed.

Lemma findMaxContributions_bounds (year : Year) :
  let m := findMaxContributions year in
  (0 <= m)%Z
  /\ (forall d, In d (List.concat year) -> (ContributionCount d <= m)%Z)
  /\ (m = 0%Z \/ exists d, In d (List.concat year) /\ ContributionCount d = m).
Proof. exact (fold_weeks_spec year 0). Qed.

(** [findMaxContributions] returns the largest count of the grid, and 0
    for a grid without a positive count: the result is never negative, it
    bounds every day, and unless it is 0 some day has exactly that
    count. *)
Theorem findMaxContributions_spec (year : Year) :
  let m := findMaxContributions year in
  (0 <= m)%Z
  /\ (forall d, In d (List.concat year) -> (ContributionCount d <= m)%Z)
  /\ (m = 0%Z \/ exists d, In d (List.concat year) /\ ContributionCount d = m).
Proof. exact (findMaxContributions_bounds year). Qed.

(** [findMaxContributionsAcrossYears] returns the largest count over all
    the years, and 0 when no day of any year has a positive count. *)
Theorem findMaxContributionsAcrossYears_spec (years : list Year) :
  let m := findMaxContributionsAcrossYears years in
  (0 <= m)%Z
  /\ (forall year d, In year years -> In d (List.concat year) ->
        (ContributionCount d <= m)%Z)
  /\ (m = 0%Z
      \/ exists year d, In year years /\ In d (List.concat year)
                        /\ ContributionCount d = m).
Proof.
  unfold findMaxContributionsAcrossYears.
  set (step := fun (maxContrib : Z) (y : Year) =>
                 if (findMaxContributions y >? maxContrib)%Z
                 then findMaxContributions y else maxContrib).
  assert (G : forall ys m0, (0 <= m0)%Z ->
             let m := fold_left step ys m0 in
             (m0 <= m)%Z
             /\ (forall year d, In year ys -> In d (List.concat year) ->
                   (ContributionCount d <= m)%Z)
             /\ (m = m0
                 \/ exists year d, In year ys /\ In d (List.concat year)
                                   /\ ContributionCount d = m)).
  { induction ys as [| y ys IH]; intros m0 Hm0; cbn.
    - repeat split; [lia | tauto | now left].
    - destruct (findMaxContributions_bounds y) as (Y1 & Y2 & Y3).
      assert (Hs : (m0 <= step m0 y)%Z
                   /\ (findMaxContributions y <= step m0 y)%Z
                   /\ (step m0 y = m0
                       \/ (step m0 y = findMaxContributions y
                           /\ (m0 < findMaxContributions y)%Z))).
      { unfold step. destruct (Z.gtb_spec (findMaxContributions y) m0); lia. }
      destruct (IH (step m0 y)) as (H1 & H2 & H3); [lia |].
      repeat split.
      + lia.
      + intros year d [<- | Hy] Hd.
        * specialize (Y2 d Hd). lia.
        * now apply (H2 year).
      + destruct H3 as [H3 | (year & d & Hy & Hd & H3)].
        * destruct Hs as (_ & _ & [Hs | [Hs Hlt]]); [left; lia |].
          destruct Y3 as [Y3 | (d & Hd & Y3)].
          -- left. lia.
          -- right. exists y, d. repeat split; [now left | exact Hd | lia].
        * right. exists year, d. repeat split; [now right | exact Hd | exact H3]. }
  apply (G years 0%Z). lia.
Qed.



(* ------------------------------------------------------------------ *)
(** ** Further properties: columns *)

Lemma CreateColumn_solid (x y h : R) :
  5 / 2 <= h ->
  exists ts,
    CreateColumn (Fin x) (Fin y) (Fin h) CellSize = Ok ts
    /\ List.length ts = 12%nat /\ Forall unitNormal ts.
Proof.
  intros Hh. unfold CreateColumn, CellSize.
  assert (Hbox := @createBox_solid x y 0 (5 / 2) (5 / 2) h).
  rewrite Hbox by nra. eexists. split; [reflexivity |].
  exact (createBox_Ok_shape _ _ _ _ _ _ (Hbox ltac:(lra) ltac:(lra) ltac:(lra)
                                           ltac:(nra) ltac:(nra) ltac:(nra))).
Qed.

Lemma weekLoop_total (week : list ContributionDay) (dayIdx weekIdx : Z)
  (b : R) (maxContrib : Z) (acc : list Triangle) :
  exists ts,
    weekLoop week dayIdx weekIdx (Fin b) maxContrib acc = Ok (acc ++ ts)
    /\ List.length ts = (12 * List.length (List.filter isActive week))%nat
    /\ Forall unitNormal ts.
Proof.
  revert dayIdx acc. induction week as [| day week IH]; intros dayIdx acc.
  - exists []. cbn. rewrite app_nil_r. repeat split. constructor.
  - cbn [weekLoop List.filter]. unfold isActive at 1.
    destruct (Z.gtb_spec (ContributionCount day) 0) as [Hpos | Hle].
    + destruct (@NormalizeContribution_range (ContributionCount day) maxContrib)
        as (h & -> & _ & Hh); [lia |].
      change (add CellSize (mul (of_int weekIdx) CellSize))
        with (Fin (5 / 2 + IZR weekIdx * (5 / 2))).
      change (add (Fin b) (mul (of_int dayIdx) CellSize))
        with (Fin (b + IZR dayIdx * (5 / 2))).
      destruct (@CreateColumn_solid
                  (5 / 2 + IZR weekIdx * (5 / 2))
                  (b + IZR dayIdx * (5 / 2)) h)
        as (col & -> & Hlen & Hunit); [apply Hh; lia |].
      destruct (IH (dayIdx + 1)%Z (acc ++ col)) as (ts & -> & Hts & Huts).
      exists (col ++ ts). rewrite app_assoc. split; [reflexivity |].
      split.
      * rewrite length_app, Hlen, Hts. cbn [List.length]. lia.
      * apply Forall_app. now split.
    + destruct (IH (dayIdx + 1)%Z acc) as (ts & -> & Hts & Huts).
      exists ts. now repeat split.
Qed.

Lemma yearLoop_total (year : Year) (weekIdx : Z) (b : R) (maxContrib : Z)
  (acc : list Triangle) :
  exists ts,
    yearLoop year weekIdx (Fin b) maxContrib acc = Ok (acc ++ ts)
    /\ List.length ts
       = (12 * List.length (List.filter isActive (List.concat year)))%nat
    /\ Forall unitNormal ts.
Proof.
  revert weekIdx acc. induction year as [| week year IH]; intros weekIdx acc.
  - exists []. cbn. rewrite app_nil_r. repeat split. constructor.
  - cbn [yearLoop List.concat].
    destruct (weekLoop_total week 0 weekIdx b maxContrib acc)
      as (ws & -> & Hws & Huws).
    destruct (IH (weekIdx + 1)%Z (acc ++ ws)) as (ts & -> & Hts & Huts).
    exists (ws ++ ts). rewrite app_assoc. split; [reflexivity |]. split.
    + rewrite filter_app, !length_app, Hws, Hts. lia.
    + apply Forall_app. now split.
Qed.

Lemma CreateContributionGeometry_columns (year : Year)
  (yearIndex maxContrib : Z) :
  exists ts,
    CreateContributionGeometry year yearIndex maxContrib = Ok ts
    /\ List.length ts = (12 * activeCount year)%nat
    /\ Forall unitNormal ts.
Proof.
  unfold CreateContributionGeometry, of_int, CellSize. cbn [add mul].
  destruct (yearLoop_total year 0 (5 / 2 + IZR yearIndex * 7 * (5 / 2))
              maxContrib []) as (ts & Hts & Hlen & Hunit).
  exists ts. split; [exact Hts |]. split; [exact Hlen | exact Hunit].
Qed.


Lemma countActive_week (week : list ContributionDay) (t : Z) :
  fold_left
    (fun t day => if (ContributionCount day >? 0)%Z then (t + 1)%Z else t)
    week t
  = (t + Z.of_nat (List.length (List.filter isActive week)))%Z.
Proof.
  revert t. induction week as [| day week IH]; intros t; cbn [fold_left].
  - cbn. lia.
  - rewrite IH. cbn [List.filter]. unfold isActive at 2.
    destruct (ContributionCount day >? 0)%Z; cbn [List.length]; lia.
Qed.

Lemma countActive_activeCount (year : Year) :
  countActive year = Z.of_nat (activeCount year).
Proof.
  unfold countActive, activeCount, activeDays.
  change (fun d : ContributionDay => (ContributionCount d >? 0)%Z)
    with isActive.
  assert (G : forall t,
             fold_left
               (fun total week =>
                  fold_left
                    (fun t day =>
                       if (ContributionCount day >? 0)%Z then (t + 1)%Z else t)
                    week total) year t
             = (t + Z.of_nat
                      (List.length (List.filter isActive (List.concat year))))%Z).
  { induction year as [| week year IH]; intros t; cbn [fold_left List.concat].
    - cbn. lia.
    - rewrite IH, countActive_week, filter_app, length_app. lia. }
  rewrite G. lia.
Qed.


Lemma columnsOf_length (year : Year) (yearIndex maxContrib : Z) :
  CreateContributionGeometry year yearIndex maxContrib
  = Ok (columnsOf year yearIndex maxContrib)
  /\ List.length (columnsOf year yearIndex maxContrib)
     = (12 * activeCount year)%nat.
Proof.
  unfold columnsOf.
  destruct (CreateContributionGeometry_columns year yearIndex maxContrib)
    as (ts & -> & Hlen & _).
  now split.
Qed.

Lemma columnsLoop_stacked env (reversed : list Year) (yearOffset maxContrib : Z)
  (acc : list Triangle) :
  columnsLoop env reversed yearOffset maxContrib acc
  = Some (acc ++ stacked reversed yearOffset maxContrib).
Proof.
  revert yearOffset acc.
  induction reversed as [| y rest IH]; intros yearOffset acc;
    cbn [columnsLoop stacked].
  - now rewrite app_nil_r.
  - destruct (columnsOf_length y yearOffset maxContrib) as [-> _].
    rewrite IH. now rewrite app_assoc.
Qed.

Lemma list_sum_cons (a : nat) (l : list nat) :
  list_sum (a :: l) = (a + list_sum l)%nat.
Proof. reflexivity. Qed.

Lemma stacked_length (years : list Year) (yearOffset maxContrib : Z) :
  List.length (stacked years yearOffset maxContrib)
  = (12 * totalActive years)%nat.
Proof.
  revert yearOffset. unfold totalActive.
  induction years as [| y rest IH]; intros yearOffset;
    cbn [stacked map]; rewrite ?list_sum_cons.
  - reflexivity.
  - rewrite length_app, IH.
    destruct (columnsOf_length y yearOffset maxContrib) as [_ ->]. lia.
Qed.

Lemma totalActive_rev (years : list Year) :
  totalActive (rev years) = totalActive years.
Proof.
  unfold totalActive. induction years as [| y rest IH]; cbn [rev map].
  - reflexivity.
  - rewrite map_app, list_sum_app, IH. cbn [map].
    rewrite !list_sum_cons. cbn [list_sum fold_right]. lia.
Qed.

Lemma generateColumns_sends env (years : list Year) (maxContrib : Z) :
  generateColumnsForYearRange env years maxContrib
  = Some {| triangles := stacked (rev years) 0 maxContrib; err := None |}.
Proof.
  unfold generateColumnsForYearRange. now rewrite columnsLoop_stacked.
Qed.

(** [generateColumnsForYearRange] always sends a result without an error,
    whatever the logger does: no year can fail, so the paths that skip a
    year or return without sending are never taken.  The triangles are
    those of the last year at offset 0, then of the year before at offset
    1, and so on, 12 for each active day. *)
Theorem generateColumnsForYearRange_total env (years : list Year)
  (maxContrib : Z) :
  generateColumnsForYearRange env years maxContrib
  = Some {| triangles := stacked (rev years) 0 maxContrib; err := None |}
  /\ List.length (stacked (rev years) 0 maxContrib)
     = (12 * totalActive years)%nat.
Proof.
  split; [apply generateColumns_sends |].
  now rewrite stacked_length, totalActive_rev.
Qed.

(* ------------------------------------------------------------------ *)
(** ** Further properties: the whole run *)

Lemma CreateCuboidBase_solid (w d : R) :
  135 <= w -> 20 <= d ->
  exists ts,
    CreateCuboidBase (Fin w) (Fin d) = Ok ts
    /\ List.length ts = 12%nat /\ Forall unitNormal ts.
Proof.
  intros Hw Hd. unfold CreateCuboidBase, BaseHeight. cbn [neg].
  assert (Hbox := @createBox_solid 0 0 (Ropp 10) w d 10).
  rewrite Hbox by nra. eexists. split; [reflexivity |].
  exact (createBox_Ok_shape _ _ _ _ _ _ (Hbox ltac:(lra) ltac:(lra) ltac:(lra)
                                           ltac:(nra) ltac:(nra) ltac:(nra))).
Qed.

Lemma base_of_dimensions (yearCount : Z) :
  (0 < yearCount)%Z ->
  exists dims ts,
    calculateDimensions yearCount = Ok dims
    /\ CreateCuboidBase (innerWidth dims) (innerDepth dims) = Ok ts
    /\ List.length ts = 12%nat /\ Forall unitNormal ts.
Proof.
  intros Hn.
  destruct (calculateDimensions_positive Hn) as (w & d & Hdims & Hw & Hd).
  destruct (CreateCuboidBase_solid Hw Hd) as (ts & Hts & Hlen & Hunit).
  eexists _, ts. split; [exact Hdims |]. cbn [innerWidth innerDepth].
  now repeat split.
Qed.



Lemma collect_not_panicked order channels acc :
  collect order channels acc <> Panicked.
Proof.
  revert acc. induction order as [| name order IH]; intros acc; cbn.
  - discriminate.
  - destruct (channels name) as [r |]; [| discriminate].
    destruct (err r); [discriminate | apply IH].
Qed.

Lemma generateModelGeometry_not_panicked env years dims maxContrib username
  startYear endYear :
  generateModelGeometry env years dims maxContrib username startYear endYear
  <> Panicked.
Proof.
  unfold generateModelGeometry. destruct (len years =? 0)%Z.
  - discriminate.
  - apply collect_not_panicked.
Qed.

Lemma generateAndWrite_not_panicked env years outputPath username startYear
  endYear :
  returned (generateAndWrite env years outputPath username startYear endYear)
  <> Panicked.
Proof.
  unfold generateAndWrite.
  destruct (calculateDimensions (len years)); [| discriminate].
  destruct (generateModelGeometry _ _ _ _ _ _ _) eqn:G; cbn;
    try discriminate.
  - repeat match goal with
           | |- context [match ?c with Some _ => _ | None => _ end] =>
               destruct c; cbn; try discriminate
           end.
  - now apply generateModelGeometry_not_panicked in G.
Qed.


Lemma channels_always_send env years dims maxContrib username startYear
  endYear name :
  In name componentNames ->
  exists r, channelsOf env years dims maxContrib username startYear endYear
                       name = Some r.
Proof.
  intros Hin. unfold componentNames in Hin. cbn in Hin.
  destruct Hin as [<- | [<- | [<- | [<- | []]]]]; cbn.
  - unfold generateBase. destruct (CreateCuboidBase _ _); now eexists.
  - rewrite generateColumns_sends. now eexists.
  - unfold generateText. destruct (Create3DText _ _ _ _ _); now eexists.
  - unfold generateLogo. destruct (GenerateImageGeometry _ _ _); now eexists.
Qed.

Lemma collect_not_blocked order channels acc :
  (forall name, In name order -> exists r, channels name = Some r) ->
  collect order channels acc <> Blocked.
Proof.
  revert acc. induction order as [| name order IH]; intros acc H; cbn.
  - discriminate.
  - destruct (H name (or_introl eq_refl)) as [r ->].
    destruct (err r); [discriminate |].
    apply IH. intros n Hn. apply H. now right.
Qed.



Lemma quiet_logger (l : Logger) :
  output l = None -> Debug l = None /\ Info l = None /\ Warning l = None.
Proof.
  intros H. unfold Debug, Info, Warning, logf. rewrite H.
  repeat split; destruct (_ <=? _)%nat; reflexivity.
Qed.

Lemma delivered_base env years dims maxContrib username startYear endYear
  base :
  CreateCuboidBase (innerWidth dims) (innerDepth dims) = Ok base ->
  delivered (channelsOf env years dims maxContrib username startYear endYear)
            "base" = base.
Proof.
  intros H. unfold delivered. cbn [channelsOf String.eqb Ascii.eqb Bool.eqb].
  unfold generateBase. now rewrite H.
Qed.

Lemma delivered_columns env years dims maxContrib username startYear endYear :
  delivered (channelsOf env years dims maxContrib username startYear endYear)
            "columns" = stacked (rev years) 0 maxContrib.
Proof.
  unfold delivered. cbn [channelsOf String.eqb Ascii.eqb Bool.eqb].
  now rewrite generateColumns_sends.
Qed.

Lemma delivered_text env years dims maxContrib username startYear endYear :
  Warning (log env) = None ->
  List.length
    (delivered (channelsOf env years dims maxContrib username startYear endYear)
               "text")
  = emitted (Create3DText env username (embossedYear startYear endYear)
               (innerWidth dims) BaseHeight).
Proof.
  intros Hw. unfold delivered. cbn [channelsOf String.eqb Ascii.eqb Bool.eqb].
  unfold generateText.
  destruct (Create3DText env username (embossedYear startYear endYear)
              (innerWidth dims) BaseHeight); cbn; [reflexivity |].
  now rewrite degraded_quiet.
Qed.

Lemma delivered_image env years dims maxContrib username startYear endYear :
  Warning (log env) = None ->
  List.length
    (delivered (channelsOf env years dims maxContrib username startYear endYear)
               "image")
  = emitted (GenerateImageGeometry env (innerWidth dims) BaseHeight).
Proof.
  intros Hw. unfold delivered. cbn [channelsOf String.eqb Ascii.eqb Bool.eqb].
  unfold generateLogo.
  destruct (GenerateImageGeometry env (innerWidth dims) BaseHeight); cbn;
    [reflexivity |].
  now rewrite degraded_quiet.
Qed.



(* ------------------------------------------------------------------ *)
(** ** Further properties: normals and validity *)

Lemma calculateNormal_Ok_finite p1 p2 p3 n :
  calculateNormal p1 p2 p3 = Ok n -> finite n.
Proof.
  intros H. apply calculateNormal_Ok_inv in H
    as ((a1 & b1 & c1 & ->) & (a2 & b2 & c2 & ->) & (a3 & b3 & c3 & ->)
        & Hz & ->).
  rewrite !vectorSubtract_pt, vectorCross_pt in *.
  rewrite normalizeVector_pt by (now apply sumsq_pos_of_nonzero).
  cbv zeta. now eexists _, _, _.
Qed.

Lemma Validate_unit_finite (t : Triangle) :
  finite (Normal t) -> finite (V1 t) -> finite (V2 t) -> finite (V3 t) ->
  unitNormal t -> Validate t = None.
Proof.
  intros Fn F1 F2 F3 Hu. apply IsValid_finite in Fn, F1, F2, F3.
  unfold Validate. rewrite Fn, F1, F2, F3. cbn [negb orb].
  unfold unitNormal, magnitude in Hu. rewrite Hu.
  cbn. replace (1 + - (1)) with 0 by lra. rewrite Rabs_R0.
  rdecide. reflexivity.
Qed.



Lemma norm_axis (a b c s : R) :
  0 < s -> a * a + b * b + c * c = s * s ->
  normalizeVector (pt a b c) = pt (a / s) (b / s) (c / s).
Proof.
  intros Hs Hsq. rewrite normalizeVector_pt by nra. cbv zeta.
  rewrite Hsq, sqrt_square by lra. reflexivity.
Qed.

Ltac face_normal s :=
  rewrite !vectorSubtract_pt, vectorCross_pt;
  rewrite (@norm_axis _ _ _ s); [ | nra | ring ];
  unfold pt; f_equal; f_equal; field; nra.




Lemma isZeroVector_neg (a b c : R) :
  isZeroVector (pt (- a) (- b) (- c)) = isZeroVector (pt a b c).
Proof.
  destruct (isZeroVector (pt a b c)) eqn:E.
  - apply isZeroVector_pt in E. apply isZeroVector_pt.
    now rewrite !Rabs_Ropp.
  - destruct (isZeroVector (pt (- a) (- b) (- c))) eqn:E'; [| reflexivity].
    apply isZeroVector_pt in E'. rewrite !Rabs_Ropp in E'.
    apply isZeroVector_pt in E'. congruence.
Qed.

Lemma normalizeVector_neg (a b c : R) :
  0 < a * a + b * b + c * c ->
  normalizeVector (pt (- a) (- b) (- c)) = negate (normalizeVector (pt a b c)).
Proof.
  intros Hpos.
  rewrite (@normalizeVector_pt a b c Hpos). cbv zeta.
  set (l := sqrt (a * a + b * b + c * c)).
  assert (Hl : 0 < l) by (apply sqrt_lt_R0; exact Hpos).
  rewrite (@norm_axis _ _ _ l);
    [ unfold negate, pt; cbn; f_equal; f_equal; field; lra
    | exact Hl
    | unfold l; rewrite sqrt_sqrt by lra; ring ].
Qed.

(** Swapping the second and third point reverses the normal:
    [calculateNormal p1 p3 p2] fails exactly when [calculateNormal p1 p2 p3]
    does, with the same error, and otherwise returns the opposite
    vector. *)
Theorem calculateNormal_winding (p1 p2 p3 : Point3D) :
  calculateNormal p1 p3 p2
  = match calculateNormal p1 p2 p3 with
    | Ok n => Ok (negate n)
    | Error e => Error e
    end.
Proof.
  destruct (IsValid p1 && IsValid p2 && IsValid p3) eqn:V.
  - apply andb_true_iff in V as [V V3]. apply andb_true_iff in V as [V1 V2].
    rewrite !calculateNormal_valid by assumption. cbv zeta.
    apply IsValid_finite in V1 as (a1 & b1 & c1 & ->).
    apply IsValid_finite in V2 as (a2 & b2 & c2 & ->).
    apply IsValid_finite in V3 as (a3 & b3 & c3 & ->).
    rewrite !vectorSubtract_pt, !vectorCross_pt.
    set (U := (b2 - b1) * (c3 - c1) - (c2 - c1) * (b3 - b1)).
    set (V := (c2 - c1) * (a3 - a1) - (a2 - a1) * (c3 - c1)).
    set (W := (a2 - a1) * (b3 - b1) - (b2 - b1) * (a3 - a1)).
    match goal with
    | |- (if isZeroVector ?q then _ else _) = _ =>
        replace q with (pt (- U) (- V) (- W))
          by (unfold U, V, W, pt; f_equal; f_equal; ring)
    end.
    rewrite isZeroVector_neg.
    destruct (isZeroVector (pt U V W)) eqn:E; [reflexivity |].
    f_equal. apply normalizeVector_neg. now apply sumsq_pos_of_nonzero.
  - rewrite (calculateNormal_invalid p1 p2 p3) by assumption.
    apply calculateNormal_invalid.
    destruct (IsValid p1), (IsValid p2), (IsValid p3); cbn in *; easy.
Qed.

Lemma IsValid_translate (dx dy dz : R) (p : Point3D) :
  IsValid (translatePoint dx dy dz p) = IsValid p.
Proof.
  destruct p as [[x| | |] [y| | |] [z| | |]]; reflexivity.
Qed.

Lemma calculateNormal_translate (dx dy dz : R) (p1 p2 p3 : Point3D) :
  calculateNormal (translatePoint dx dy dz p1) (translatePoint dx dy dz p2)
                  (translatePoint dx dy dz p3)
  = calculateNormal p1 p2 p3.
Proof.
  destruct (IsValid p1 && IsValid p2 && IsValid p3) eqn:V.
  - apply andb_true_iff in V as [V V3]. apply andb_true_iff in V as [V1 V2].
    rewrite !calculateNormal_valid by (rewrite ?IsValid_translate; assumption).
    cbv zeta.
    apply IsValid_finite in V1 as (a1 & b1 & c1 & ->).
    apply IsValid_finite in V2 as (a2 & b2 & c2 & ->).
    apply IsValid_finite in V3 as (a3 & b3 & c3 & ->).
    change (translatePoint dx dy dz (pt a1 b1 c1))
      with (pt (a1 + dx) (b1 + dy) (c1 + dz)).
    change (translatePoint dx dy dz (pt a2 b2 c2))
      with (pt (a2 + dx) (b2 + dy) (c2 + dz)).
    change (translatePoint dx dy dz (pt a3 b3 c3))
      with (pt (a3 + dx) (b3 + dy) (c3 + dz)).
    rewrite !vectorSubtract_pt.
    replace (pt (a2 + dx - (a1 + dx)) (b2 + dy - (b1 + dy))
                (c2 + dz - (c1 + dz)))
      with (pt (a2 - a1) (b2 - b1) (c2 - c1))
      by (unfold pt; f_equal; f_equal; ring).
    replace (pt (a3 + dx - (a1 + dx)) (b3 + dy - (b1 + dy))
                (c3 + dz - (c1 + dz)))
      with (pt (a3 - a1) (b3 - b1) (c3 - c1))
      by (unfold pt; f_equal; f_equal; ring).
    reflexivity.
  - rewrite (calculateNormal_invalid p1 p2 p3) by assumption.
    apply calculateNormal_invalid. now rewrite !IsValid_translate.
Qed.


Lemma CreateQuad_translate (dx dy dz : R) (v1 v2 v3 v4 : Point3D) :
  CreateQuad (translatePoint dx dy dz v1) (translatePoint dx dy dz v2)
             (translatePoint dx dy dz v3) (translatePoint dx dy dz v4)
  = translated dx dy dz (CreateQuad v1 v2 v3 v4).
Proof.
  unfold CreateQuad. rewrite calculateNormal_translate.
  destruct (calculateNormal v1 v2 v3); reflexivity.
Qed.

Lemma vertexAt_map (dx dy dz : R) (vs : list Point3D) (i : nat) :
  (i < List.length vs)%nat ->
  vertexAt (map (translatePoint dx dy dz) vs) i
  = translatePoint dx dy dz (vertexAt vs i).
Proof.
  intros Hi. unfold vertexAt.
  rewrite (nth_indep _ origin (translatePoint dx dy dz origin))
    by (rewrite length_map; exact Hi).
  apply map_nth.
Qed.

Lemma boxLoop_translate (dx dy dz : R) (vs : list Point3D)
  (qs : list (nat * nat * nat * nat)) (acc : list Triangle) :
  Forall (fun q => let '(a, b, c, d) := q in
            (a < List.length vs /\ b < List.length vs
             /\ c < List.length vs /\ d < List.length vs)%nat) qs ->
  boxLoop (map (translatePoint dx dy dz) vs) qs (map (translate dx dy dz) acc)
  = translated dx dy dz (boxLoop vs qs acc).
Proof.
  intros H. revert acc.
  induction H as [| [[[a b] c] d] qs (Ha & Hb & Hc & Hd) _ IH]; intros acc;
    cbn [boxLoop].
  - reflexivity.
  - rewrite !vertexAt_map by assumption. rewrite CreateQuad_translate.
    destruct (CreateQuad (vertexAt vs a) (vertexAt vs b) (vertexAt vs c)
                (vertexAt vs d)) as [quadTriangles | e]; cbn [translated].
    + rewrite <- map_app. apply IH.
    + reflexivity.
Qed.

Lemma createBox_moved (x y z w h d dx dy dz : R) :
  createBox (Fin (x + dx)) (Fin (y + dy)) (Fin (z + dz)) (Fin w) (Fin h) (Fin d)
  = translated dx dy dz
      (createBox (Fin x) (Fin y) (Fin z) (Fin w) (Fin h) (Fin d)).
Proof.
  unfold createBox. destruct (_ || _); [reflexivity |].
  replace (boxVertices (Fin (x + dx)) (Fin (y + dy)) (Fin (z + dz)) (Fin w)
             (Fin h) (Fin d))
    with (map (translatePoint dx dy dz)
            (boxVertices (Fin x) (Fin y) (Fin z) (Fin w) (Fin h) (Fin d))).
  - apply (@boxLoop_translate dx dy dz _ quads []).
    unfold quads. repeat constructor.
  - unfold boxVertices, translatePoint. cbn.
    repeat (f_equal; try lra).
Qed.


(* ------------------------------------------------------------------ *)
(** ** Further properties: wrapped errors *)

Lemma ErrorType_eqb_refl (t : ErrorType) : ErrorType_eqb t t = true.
Proof. now destruct t. Qed.

Lemma Wrap1_skyline_chain (t : ErrorType) (inner : option error)
  (ms : list string) (m : string) :
  fold_left Wrap1 ms (SkylineError t m inner)
  = SkylineError t
      (fold_left (fun acc p => (p ++ ": " ++ acc)%string) ms m) inner.
Proof.
  revert m. induction ms as [| p ms IH]; intros m; cbn [fold_left].
  - reflexivity.
  - cbn [Wrap1]. apply IH.
Qed.

(** [Wrap] leaves [nil] alone.  However often a SkylineError is wrapped, it
    keeps its type and its inner error, so [Is] and [Unwrap] see through
    the wrapping, and the messages pile up in front of the original one,
    the last one first.  Any other error is wrapped once as an [STLError]
    that unwraps to it. *)
Theorem Wrap_preserves (t : ErrorType) (m : string) (inner : option error)
  (ms : list string) :
  let e := SkylineError t m inner in
  let wrapped := fold_left Wrap1 ms e in
  (forall message, Wrap None message = None)
  /\ (forall e' message, Wrap (Some e') message = Some (Wrap1 e' message))
  /\ TypeOf wrapped = Some t
  /\ Unwrap wrapped = inner
  /\ (forall target, Is wrapped target = Is e target)
  /\ (forall target, Is target wrapped = Is target e)
  /\ MessageOf wrapped
     = Some (fold_left (fun acc p => (p ++ ": " ++ acc)%string) ms m)
  /\ (forall text message,
        TypeOf (Wrap1 (OtherError text) message) = Some STLError
        /\ Unwrap (Wrap1 (OtherError text) message) = Some (OtherError text)).
Proof.
  cbv zeta. rewrite Wrap1_skyline_chain.
  split; [reflexivity |]. split; [now intros [? ? ? | ?] |].
  repeat split.
Qed.

(* ------------------------------------------------------------------ *)
(** ** Further properties: the text preview *)

Lemma feqb_zero (n : float64) : feqb n (Fin 0) = true <-> n = Fin 0.
Proof.
  destruct n as [r | | |]; cbn; try (split; discriminate).
  rewrite Reqb_true. split; [now intros -> | now intros [= ->]].
Qed.


Lemma length_append (s1 s2 : string) :
  String.length (s1 ++ s2) = (String.length s1 + String.length s2)%nat.
Proof. induction s1; cbn; [reflexivity | now rewrite IHs1]. Qed.

Lemma length_spaces (n : nat) : String.length (spaces n) = n.
Proof. induction n; cbn; [reflexivity | now rewrite IHn]. Qed.

Lemma length_prefix (n : nat) (s : string) :
  (n <= String.length s)%nat -> String.length (substring 0 n s) = n.
Proof.
  revert s. induction n as [| n IH]; intros s Hn.
  - destruct s; reflexivity.
  - destruct s as [| c s]; cbn in *; [lia |]. rewrite IH by lia. reflexivity.
Qed.

(** [centerText] returns a line of 53 bytes and a newline: a longer text
    is cut to its first 53 bytes, a shorter one gets spaces on both sides,
    the odd one on the right.  The exception is a text of 52 bytes, which
    is returned as it is with the newline, one byte short. *)
Theorem centerText_width (text : string) :
  let n := String.length text in
  String.length (centerText text) = (if (n =? 52)%nat then 53 else 54)%nat
  /\ ((53 <= n)%nat ->
      centerText text = (substring 0 53 text ++ newline)%string)
  /\ ((n <= 51)%nat ->
      exists left right,
        centerText text
        = (spaces left ++ text ++ spaces right ++ newline)%string
        /\ (left + n + right = 53)%nat
        /\ (left <= right <= left + 1)%nat).
Proof.
  cbv zeta. unfold centerText, GridWidth.
  destruct (Nat.leb_spec 53 (String.length text)) as [Hlong | Hshort].
  - split; [| split; [reflexivity | lia]].
    rewrite length_append, length_prefix by lia.
    destruct (Nat.eqb_spec (String.length text) 52); [lia | reflexivity].
  - destruct (Nat.leb_spec (53 - String.length text) 1) as [Hone | Hmore].
    + assert (String.length text = 52)%nat as E by lia.
      split; [| split; lia].
      rewrite length_append, E. reflexivity.
    + pose proof (Nat.div_mod_eq (53 - String.length text) 2) as Hdiv.
      pose proof (Nat.mod_upper_bound (53 - String.length text) 2
                    ltac:(lia)) as Hmod.
      split; [| split; [lia |]].
      * rewrite !length_append, !length_spaces.
        destruct (Nat.eqb_spec (String.length text) 52); [lia |].
        cbn [String.length newline]. lia.
      * intros _. eexists _, _. split; [reflexivity |]. lia.
Qed.

Lemma centerText_width_witness :
  String.length (centerText "octocat") = 54%nat
  /\ exists left right,
      centerText "octocat"
      = (spaces left ++ "octocat" ++ spaces right ++ newline)%string
      /\ (left + 7 + right = 53)%nat /\ (left <= right <= left + 1)%nat.
Proof.
  destruct (centerText_width "octocat") as (Hlen & _ & Hshort).
  split; [exact Hlen |]. apply Hshort. cbn. lia.
Defined.

Lemma separate_spec (isAfter : ContributionDay -> bool)
  (week nonZero zero future : list ContributionDay) :
  separate isAfter week nonZero zero future
  = (nonZero ++ pastActive isAfter week, zero ++ pastIdle isAfter week,
     future ++ futureDays isAfter week).
Proof.
  revert nonZero zero future.
  induction week as [| day week IH]; intros nonZero zero future;
    cbn [separate].
  - unfold pastActive, pastIdle, futureDays. cbn. now rewrite !app_nil_r.
  - unfold pastActive, pastIdle, futureDays in *. cbn [List.filter map].
    destruct (isAfter day); cbn [negb andb map].
    + rewrite IH. now rewrite <- app_assoc.
    + destruct (ContributionCount day >? 0)%Z; cbn [negb];
        rewrite IH; now rewrite <- app_assoc.
Qed.

Lemma week_partition (isAfter : ContributionDay -> bool)
  (week : list ContributionDay) :
  (List.length (pastActive isAfter week) + List.length (pastIdle isAfter week)
   + List.length (futureDays isAfter week))%nat
  = List.length week.
Proof.
  unfold pastActive, pastIdle, futureDays. rewrite length_map.
  induction week as [| day week IH]; cbn [List.filter List.length].
  - reflexivity.
  - destruct (isAfter day); cbn [negb andb List.length]; [lia |].
    destruct (ContributionCount day >? 0)%Z; cbn [negb List.length]; lia.
Qed.

Lemma setAt_app {A : Type} (pre post : list A) (x v : A) :
  setAt (pre ++ x :: post) (List.length pre) v = pre ++ v :: post.
Proof.
  induction pre as [| p pre IH]; cbn; [reflexivity | now rewrite IH].
Qed.

(** A copy loop into a slice whose free part holds [k] zero days. *)
Lemma fill_spec (days pre : list ContributionDay) (k : nat) :
  fill days (pre ++ repeat zeroDay k) (List.length pre)
  = if (List.length days <=? k)%nat
    then Done (pre ++ days ++ repeat zeroDay (k - List.length days),
               (List.length pre + List.length days)%nat)
    else Panicked.
Proof.
  revert pre k. induction days as [| day days IH]; intros pre k.
  - cbn. now rewrite Nat.sub_0_r, Nat.add_0_r.
  - cbn [fill List.length]. rewrite length_app, repeat_length.
    destruct k as [| k].
    + cbn [repeat]. destruct (Nat.ltb_spec (List.length pre)
                                (List.length pre + 0)); [lia |].
      reflexivity.
    + destruct (Nat.ltb_spec (List.length pre) (List.length pre + S k));
        [| lia].
      cbn [repeat]. rewrite setAt_app.
      replace (pre ++ day :: repeat zeroDay k)
        with ((pre ++ [day]) ++ repeat zeroDay k)
        by (now rewrite <- app_assoc).
      replace (S (List.length pre)) with (List.length (pre ++ [day]))
        by (rewrite length_app; cbn; lia).
      rewrite IH. cbn [Nat.leb].
      destruct (List.length days <=? k)%nat; [| reflexivity].
      rewrite <- !app_assoc, length_app. cbn [List.length app Nat.sub].
      do 2 f_equal. lia.
Qed.

(** [sortContributionDays] on a week of at most 7 days returns 7 days: the
    past days with a positive count in their order, then the other past
    days, then the future days with count -1, then zero-valued days up to
    7; with it, the number of days in the first group.  A week of more
    than 7 days makes it panic with an index out of range. *)
Theorem sortContributionDays_spec (isAfter : ContributionDay -> bool)
  (week : list ContributionDay) :
  sortContributionDays isAfter week
  = if (List.length week <=? 7)%nat
    then Done (pastActive isAfter week ++ pastIdle isAfter week
               ++ futureDays isAfter week
               ++ repeat zeroDay (7 - List.length week),
               len (pastActive isAfter week))
    else Panicked.
Proof.
  unfold sortContributionDays. rewrite separate_spec. cbn [app].
  pose proof (week_partition isAfter week) as Hpart.
  set (nz := pastActive isAfter week) in *.
  set (z := pastIdle isAfter week) in *.
  set (fu := futureDays isAfter week) in *.
  change (repeat zeroDay 7) with ([] ++ repeat zeroDay 7).
  change 0%nat with (List.length (@nil ContributionDay)) at 1.
  rewrite fill_spec. cbn [app List.length Nat.add].
  destruct (Nat.leb_spec (List.length nz) 7) as [H1 | H1].
  - rewrite fill_spec.
    destruct (Nat.leb_spec (List.length z) (7 - List.length nz)) as [H2 | H2].
    + replace (nz ++ z ++ repeat zeroDay (7 - List.length nz - List.length z))
        with ((nz ++ z) ++ repeat zeroDay (7 - List.length nz - List.length z))
        by (now rewrite <- app_assoc).
      replace (List.length nz + List.length z)%nat
        with (List.length (nz ++ z)) by (now rewrite length_app).
      rewrite fill_spec.
      destruct (Nat.leb_spec (List.length fu)
                  (7 - List.length nz - List.length z)) as [H3 | H3].
      * destruct (Nat.leb_spec (List.length week) 7); [| lia].
        rewrite <- !app_assoc.
        replace (7 - List.length nz - List.length z - List.length fu)%nat
          with (7 - List.length week)%nat by lia.
        reflexivity.
      * destruct (Nat.leb_spec (List.length week) 7); [lia | reflexivity].
    + destruct (Nat.leb_spec (List.length week) 7); [lia | reflexivity].
  - destruct (Nat.leb_spec (List.length week) 7); [lia | reflexivity].
Qed.

(* ------------------------------------------------------------------ *)
(** ** Further properties: heights and stacking *)



Lemma translated_app (dy : R) (acc ts : list Triangle) :
  map (translate 0 dy 0) acc ++ map (translate 0 dy 0) ts
  = map (translate 0 dy 0) (acc ++ ts).
Proof. now rewrite map_app. Qed.

Lemma CreateColumn_moved (x y h dy : R) :
  CreateColumn (Fin x) (Fin (y + dy)) (Fin h) CellSize
  = translated 0 dy 0 (CreateColumn (Fin x) (Fin y) (Fin h) CellSize).
Proof.
  unfold CreateColumn, CellSize.
  rewrite <- (createBox_moved x y 0 (5 / 2) (5 / 2) h 0 dy 0).
  do 2 f_equal; f_equal; lra.
Qed.

Lemma weekLoop_moved (week : list ContributionDay) (dayIdx weekIdx : Z)
  (b dy : R) (maxContrib : Z) (acc : list Triangle) :
  weekLoop week dayIdx weekIdx (Fin (b + dy)) maxContrib
           (map (translate 0 dy 0) acc)
  = translated 0 dy 0 (weekLoop week dayIdx weekIdx (Fin b) maxContrib acc).
Proof.
  revert dayIdx acc. induction week as [| day week IH]; intros dayIdx acc;
    cbn [weekLoop].
  - reflexivity.
  - destruct (ContributionCount day >? 0)%Z eqn:Hpos; [| apply IH].
    apply Z.gtb_lt in Hpos.
    destruct (@NormalizeContribution_range (ContributionCount day) maxContrib)
      as (h & -> & _ & _); [lia |].
    change (add CellSize (mul (of_int weekIdx) CellSize))
      with (Fin (5 / 2 + IZR weekIdx * (5 / 2))).
    change (add (Fin (b + dy)) (mul (of_int dayIdx) CellSize))
      with (Fin (b + dy + IZR dayIdx * (5 / 2))).
    change (add (Fin b) (mul (of_int dayIdx) CellSize))
      with (Fin (b + IZR dayIdx * (5 / 2))).
    replace (b + dy + IZR dayIdx * (5 / 2))
      with (b + IZR dayIdx * (5 / 2) + dy) by ring.
    rewrite CreateColumn_moved.
    destruct (CreateColumn _ _ _ _) as [col | e]; cbn [translated].
    + rewrite translated_app. apply IH.
    + reflexivity.
Qed.

Lemma yearLoop_moved (year : Year) (weekIdx : Z) (b dy : R) (maxContrib : Z)
  (acc : list Triangle) :
  yearLoop year weekIdx (Fin (b + dy)) maxContrib (map (translate 0 dy 0) acc)
  = translated 0 dy 0 (yearLoop year weekIdx (Fin b) maxContrib acc).
Proof.
  revert weekIdx acc. induction year as [| week year IH]; intros weekIdx acc;
    cbn [yearLoop].
  - reflexivity.
  - rewrite weekLoop_moved.
    destruct (weekLoop week 0 weekIdx (Fin b) maxContrib acc) as [ts | e];
      cbn [translated]; [apply IH | reflexivity].
Qed.


(** An empty output path or user name is rejected like an invalid first
    year: with a validation error, before any geometry, and without
    writing a file. *)
Theorem GenerateSTLRange_requires_names env (first : Year) (rest : list Year)
  outputPath username startYear endYear :
  Debug (log env) = None ->
  outputPath = ""%string \/ username = ""%string ->
  exists e,
    GenerateSTLRange env (first :: rest) outputPath username startYear endYear
    = {| returned := Failed e; trace := [] |}
    /\ TypeOf e = Some ValidationError.
Proof.
  intros Hlog Hname. unfold GenerateSTLRange. rewrite Hlog.
  destruct (validateInput first outputPath username) as [e |] eqn:E.
  - eexists. split; [reflexivity |].
    apply Wrap1_keeps_type. eapply validateInput_error_type. exact E.
  - apply validateInput_None in E. tauto.
Qed.

Lemma GenerateSTLRange_requires_names_witness :
  exists e,
    GenerateSTLRange (envWith [] [] componentNames) [smallYear] "" "user"
                     2023 2023
    = {| returned := Failed e; trace := [] |}
    /\ TypeOf e = Some ValidationError.
Proof.
  apply GenerateSTLRange_requires_names.
  - reflexivity.
  - now left.
Defined.

(* ------------------------------------------------------------------ *)
(** ** Further properties: the footprint of the columns *)

Lemma within_weaken (xlo xhi ylo yhi zlo zhi xlo' xhi' ylo' yhi' zlo' zhi' : R)
  (ps : list Point3D) :
  xlo' <= xlo -> xhi <= xhi' -> ylo' <= ylo -> yhi <= yhi' ->
  zlo' <= zlo -> zhi <= zhi' ->
  Forall (within xlo xhi ylo yhi zlo zhi) ps ->
  Forall (within xlo' xhi' ylo' yhi' zlo' zhi') ps.
Proof.
  intros H1 H2 H3 H4 H5 H6. apply Forall_impl.
  intros p (a & b & c & -> & Ha & Hb & Hc).
  exists a, b, c. repeat split; lra.
Qed.

Lemma column_corners (x y h : R) :
  5 / 2 <= h ->
  exists ts,
    CreateColumn (Fin x) (Fin y) (Fin h) CellSize = Ok ts
    /\ Forall (within x (x + 5 / 2) y (y + 5 / 2) 0 h) (meshCorners ts).
Proof.
  intros Hh. unfold CreateColumn, CellSize.
  rewrite (@createBox_solid x y 0 (5 / 2) (5 / 2) h) by nra.
  eexists. split; [reflexivity |].
  rewrite boxVertices_pt. unfold quads, meshCorners.
  cbn [flat_map faceTriangles vertexAt nth app corners V1 V2 V3].
  repeat (apply Forall_cons;
          [ eexists _, _, _; split; [reflexivity | lra] | ]).
  apply Forall_nil.
Qed.

Lemma meshCorners_app (a b : list Triangle) :
  meshCorners (a ++ b) = meshCorners a ++ meshCorners b.
Proof. unfold meshCorners. apply flat_map_app. Qed.

Lemma height_in_range (count maxContrib : Z) :
  (0 < count <= maxContrib)%Z ->
  exists h, NormalizeContribution count maxContrib = Fin h /\ 5 / 2 <= h <= 25.
Proof.
  intros H. rewrite NormalizeContribution_scaled by lia.
  eexists. split; [reflexivity |].
  assert (0 < sqrt (IZR maxContrib)) by (apply sqrt_lt_R0, IZR_lt; lia).
  assert (0 <= sqrt (IZR count)) by apply sqrt_pos.
  assert (sqrt (IZR count) <= sqrt (IZR maxContrib))
    by (apply sqrt_le_1; apply IZR_le; lia).
  assert (0 <= sqrt (IZR count) / sqrt (IZR maxContrib) <= 1).
  { split.
    - apply Rmult_le_pos; [assumption | left; now apply Rinv_0_lt_compat].
    - apply (Rmult_le_reg_r (sqrt (IZR maxContrib))); [assumption |].
      unfold Rdiv. rewrite Rmult_assoc, Rinv_l by lra. lra. }
  lra.
Qed.

Lemma weekLoop_footprint (week : list ContributionDay) (dayIdx weekIdx : Z)
  (b : R) (maxContrib : Z) (acc : list Triangle) :
  (forall d, In d week -> (ContributionCount d <= maxContrib)%Z) ->
  exists ts,
    weekLoop week dayIdx weekIdx (Fin b) maxContrib acc = Ok (acc ++ ts)
    /\ Forall (within (5 / 2 + IZR weekIdx * (5 / 2))
                      (5 / 2 + IZR weekIdx * (5 / 2) + 5 / 2)
                      (b + IZR dayIdx * (5 / 2))
                      (b + (IZR dayIdx + INR (List.length week)) * (5 / 2))
                      0 25)
              (meshCorners ts).
Proof.
  revert dayIdx acc. induction week as [| day week IH];
    intros dayIdx acc Hmax.
  - exists []. cbn [weekLoop]. rewrite app_nil_r. split; [reflexivity |].
    constructor.
  - assert (Hrest : forall d, In d week ->
                      (ContributionCount d <= maxContrib)%Z)
      by (intros d Hd; apply Hmax; now right).
    assert (Hlen : INR (List.length (day :: week))
                   = INR (List.length week) + 1)
      by (cbn [List.length]; apply S_INR).
    assert (Hpos : 0 <= INR (List.length week)) by apply pos_INR.
    cbn [weekLoop].
    destruct (Z.gtb_spec (ContributionCount day) 0) as [Hday | Hday].
    + destruct (@height_in_range (ContributionCount day) maxContrib)
        as (h & -> & Hh); [split; [lia | apply Hmax; now left] |].
      change (add CellSize (mul (of_int weekIdx) CellSize))
        with (Fin (5 / 2 + IZR weekIdx * (5 / 2))).
      change (add (Fin b) (mul (of_int dayIdx) CellSize))
        with (Fin (b + IZR dayIdx * (5 / 2))).
      destruct (@column_corners (5 / 2 + IZR weekIdx * (5 / 2))
                  (b + IZR dayIdx * (5 / 2)) h) as (col & -> & Hcol); [lra |].
      destruct (IH (dayIdx + 1)%Z (acc ++ col) Hrest) as (ts & -> & Hts).
      exists (col ++ ts). rewrite app_assoc. split; [reflexivity |].
      rewrite meshCorners_app. apply Forall_app. split.
      * eapply within_weaken; [.. | exact Hcol]; lra.
      * rewrite plus_IZR in Hts.
        eapply within_weaken; [.. | exact Hts]; lra.
    + destruct (IH (dayIdx + 1)%Z acc Hrest) as (ts & -> & Hts).
      exists ts. split; [reflexivity |].
      rewrite plus_IZR in Hts.
      eapply within_weaken; [.. | exact Hts]; lra.
Qed.

Lemma yearLoop_footprint (year : Year) (weekIdx : Z) (b : R) (maxContrib : Z)
  (acc : list Triangle) :
  (forall week, In week year -> (List.length week <= 7)%nat) ->
  (forall d, In d (List.concat year) -> (ContributionCount d <= maxContrib)%Z) ->
  exists ts,
    yearLoop year weekIdx (Fin b) maxContrib acc = Ok (acc ++ ts)
    /\ Forall (within (5 / 2 + IZR weekIdx * (5 / 2))
                      (5 / 2 + (IZR weekIdx + INR (List.length year)) * (5 / 2))
                      b (b + 35 / 2) 0 25)
              (meshCorners ts).
Proof.
  revert weekIdx acc. induction year as [| week year IH];
    intros weekIdx acc Hdays Hmax.
  - exists []. cbn [yearLoop]. rewrite app_nil_r. split; [reflexivity |].
    constructor.
  - assert (Hlen : INR (List.length (week :: year))
                   = INR (List.length year) + 1)
      by (cbn [List.length]; apply S_INR).
    assert (Hpos : 0 <= INR (List.length year)) by apply pos_INR.
    assert (Hw : INR (List.length week) <= 7).
    { replace 7 with (INR 7) by (cbn; lra).
      apply le_INR, Hdays. now left. }
    assert (Hw0 : 0 <= INR (List.length week)) by apply pos_INR.
    cbn [yearLoop].
    destruct (@weekLoop_footprint week 0 weekIdx b maxContrib acc)
      as (ws & -> & Hws).
    { intros d Hd. apply Hmax. cbn [List.concat]. apply in_or_app. now left. }
    destruct (IH (weekIdx + 1)%Z (acc ++ ws)) as (ts & -> & Hts).
    { intros w Hin. apply Hdays. now right. }
    { intros d Hd. apply Hmax. cbn [List.concat]. apply in_or_app. now right. }
    exists (ws ++ ts). rewrite app_assoc. split; [reflexivity |].
    rewrite meshCorners_app. apply Forall_app. split.
    + eapply within_weaken; [.. | exact Hws]; lra.
    + rewrite plus_IZR in Hts.
      eapply within_weaken; [.. | exact Hts]; lra.
Qed.


